(** * ngPlacesAutocomplete: the directive's link function, embedded and verified

    A shallow embedding of [src/ngPlacesAutocomplete.js].  The directive is
    glue between AngularJS (scope, ngModel controller, jqLite element) and the
    Google Maps Places client; every handler of the link function is
    translated statement by statement into a state-and-exception monad over
    one record that holds the scope, the controller, the element, the two
    local variables of the closure and a log of the calls made to the outside
    (service requests, console warnings, emitted events). *)

From Stdlib Require Import Ascii String List Bool ZArith QArith DecimalString.
Import ListNotations.
Local Close Scope Q_scope.
Local Open Scope string_scope.
Local Open Scope list_scope.

(** ** JavaScript values *)

(** A JavaScript number.  The directive never computes with numbers: it tests
    them for truthiness, compares a length with zero and passes them on.  A
    double is therefore represented by the rational it denotes (both zeros are
    [Fin 0]), next to the three special values. *)
Inductive JsNum : Type :=
| NaN
| PosInf
| NegInf
| Fin (q : Q).

#[warnings="-register-all"] Inductive JsVal : Type :=
| JUndefined
| JNull
| JBool (b : bool)
| JNum (n : JsNum)
| JStr (s : string)
| JArr (items : list JsVal)
| JObj (fields : list (string * JsVal)).

(** The only exception the directive's own code can raise. *)
Inductive JsError : Type :=
| TypeError (reading : string).

Inductive Res (A : Type) : Type :=
| Ok (a : A)
| Err (e : JsError).
Arguments Ok {A} a.
Arguments Err {A} e.

Definition num_of_nat (n : nat) : JsNum := Fin (inject_Z (Z.of_nat n)).

Definition num_truthy (n : JsNum) : bool :=
  match n with
  | NaN => false
  | PosInf | NegInf => true
  | Fin q => negb (Qeq_bool q 0%Q)
  end.

(** [n > 0] on numbers. *)
Definition num_gt_zero (n : JsNum) : bool :=
  match n with
  | NaN | NegInf => false
  | PosInf => true
  | Fin q => negb (Qle_bool q 0%Q)
  end.

(** [n === 0] on numbers. *)
Definition num_is_zero (n : JsNum) : bool :=
  match n with
  | Fin q => Qeq_bool q 0%Q
  | _ => false
  end.

(** ToBoolean: what [if (v)], [v && w] and [v || w] test. *)
Definition truthy (v : JsVal) : bool :=
  match v with
  | JUndefined | JNull => false
  | JBool b => b
  | JNum n => num_truthy n
  | JStr s => negb (String.eqb s "")
  | JArr _ | JObj _ => true
  end.

(** [v === true], [v === undefined], [v === null]. *)
Definition is_true (v : JsVal) : bool :=
  match v with JBool true => true | _ => false end.

Definition is_undefined (v : JsVal) : bool :=
  match v with JUndefined => true | _ => false end.

Definition is_null (v : JsVal) : bool :=
  match v with JNull => true | _ => false end.

(** Own properties of an object literal, in insertion order. *)
Fixpoint obj_get (fields : list (string * JsVal)) (k : string) : JsVal :=
  match fields with
  | [] => JUndefined
  | (k', v) :: rest => if String.eqb k' k then v else obj_get rest k
  end.

Fixpoint obj_set (fields : list (string * JsVal)) (k : string) (v : JsVal)
  : list (string * JsVal) :=
  match fields with
  | [] => [(k, v)]
  | (k', v') :: rest =>
      if String.eqb k' k then (k, v) :: rest else (k', v') :: obj_set rest k v
  end.

Definition index_key (i : nat) : string :=
  NilEmpty.string_of_uint (Nat.to_uint i).

Definition char_at (s : string) (i : nat) : JsVal :=
  match String.get i s with
  | Some c => JStr (String c EmptyString)
  | None => JUndefined
  end.

(** [v.k]: reading a property of [undefined] or [null] throws; a string and an
    array have a [length]; any other read of a primitive is [undefined]. *)
Definition get_prop (v : JsVal) (k : string) : Res JsVal :=
  match v with
  | JUndefined => Err (TypeError k)
  | JNull => Err (TypeError k)
  | JBool _ | JNum _ => Ok JUndefined
  | JStr s =>
      if String.eqb k "length" then Ok (JNum (num_of_nat (String.length s)))
      else Ok JUndefined
  | JArr xs =>
      if String.eqb k "length" then Ok (JNum (num_of_nat (List.length xs)))
      else Ok JUndefined
  | JObj fs => Ok (obj_get fs k)
  end.

(** [v[i]] for a literal index. *)
Definition get_index (v : JsVal) (i : nat) : Res JsVal :=
  match v with
  | JUndefined => Err (TypeError (index_key i))
  | JNull => Err (TypeError (index_key i))
  | JBool _ | JNum _ => Ok JUndefined
  | JStr s => Ok (char_at s i)
  | JArr xs => Ok (nth i xs JUndefined)
  | JObj fs => Ok (obj_get fs (index_key i))
  end.

(** ** The world the link function runs in *)

(** The [google.maps.places.Autocomplete] instance, as far as the directive
    can tell: the filters it last set through the setters, and the place the
    widget hands out from [getPlace()].  A freshly constructed widget (the
    directive passes the empty options object) has none of them set. *)
Record Widget : Type := {
  w_types : JsVal;
  w_bounds : JsVal;
  w_componentRestrictions : JsVal;
  w_fields : JsVal;
  w_place : JsVal
}.

Definition new_Autocomplete : Widget :=
  {| w_types := JUndefined; w_bounds := JUndefined;
     w_componentRestrictions := JUndefined; w_fields := JUndefined;
     w_place := JUndefined |}.

Definition setTypes (v : JsVal) (w : Widget) : Widget :=
  {| w_types := v; w_bounds := w_bounds w;
     w_componentRestrictions := w_componentRestrictions w;
     w_fields := w_fields w; w_place := w_place w |}.

Definition setBounds (v : JsVal) (w : Widget) : Widget :=
  {| w_types := w_types w; w_bounds := v;
     w_componentRestrictions := w_componentRestrictions w;
     w_fields := w_fields w; w_place := w_place w |}.

Definition setComponentRestrictions (v : JsVal) (w : Widget) : Widget :=
  {| w_types := w_types w; w_bounds := w_bounds w;
     w_componentRestrictions := v;
     w_fields := w_fields w; w_place := w_place w |}.

Definition setFields (v : JsVal) (w : Widget) : Widget :=
  {| w_types := w_types w; w_bounds := w_bounds w;
     w_componentRestrictions := w_componentRestrictions w;
     w_fields := v; w_place := w_place w |}.

(** What the directive does to the outside, in the order it does it. *)
Inductive Call : Type :=
| GetPlacePredictions (request : JsVal)   (* autocompleteService.getPlacePredictions *)
| GetDetails (request : JsVal)            (* placesService.getDetails *)
| Geocode (request : JsVal)               (* geocoder.geocode *)
| ConsoleWarn (msg : string)              (* console.warn *)
| Emit (name : string)                    (* scope.$emit *)
| ExceptionHandler (e : JsError).         (* $exceptionHandler, from scope.$apply *)

(** The listeners the link function installs. *)
Inductive Listener : Type :=
| OnKey            (* element.bind("keydown keypress", ...) *)
| OnPlaceChanged   (* google.maps.event.addListener(scope.gPlace, 'place_changed', ...) *)
| Render           (* controller.$render = ... *)
| WatchOptions     (* scope.$watch(scope.watchOptions, ..., true) *)
| WatchPlace       (* scope.$watch(scope.watchPlace, ..., true) *)
| WatchAddress     (* scope.$watch(scope.watchAddress, ..., true) *)
| OnSubmit.        (* scope.$on('ngPlacesAutocomplete:submit', ...) *)

(** Everything the closures of [link] share.  [viewValue] is
    [controller.$viewValue], the value [$setViewValue] commits to the bound
    model; [element_value] is the text shown in the input; [focusout] holds
    the formatted address captured by each pending one-shot focusout handler,
    oldest first. *)
Record State : Type := {
  scope_options : JsVal;
  scope_details : JsVal;
  scope_placeId : JsVal;
  scope_initialAddress : JsVal;
  scope_gPlace : option Widget;
  viewValue : JsVal;
  element_value : string;
  element_focused : bool;
  focusout : list JsVal;
  watchEnter : bool;
  opts : list (string * JsVal);
  listeners : list Listener;
  calls : list Call
}.

Definition with_details (v : JsVal) (s : State) : State :=
  {| scope_options := scope_options s; scope_details := v;
     scope_placeId := scope_placeId s;
     scope_initialAddress := scope_initialAddress s;
     scope_gPlace := scope_gPlace s; viewValue := viewValue s;
     element_value := element_value s; element_focused := element_focused s;
     focusout := focusout s; watchEnter := watchEnter s; opts := opts s;
     listeners := listeners s; calls := calls s |}.

Definition with_gPlace (g : option Widget) (s : State) : State :=
  {| scope_options := scope_options s; scope_details := scope_details s;
     scope_placeId := scope_placeId s;
     scope_initialAddress := scope_initialAddress s;
     scope_gPlace := g; viewValue := viewValue s;
     element_value := element_value s; element_focused := element_focused s;
     focusout := focusout s; watchEnter := watchEnter s; opts := opts s;
     listeners := listeners s; calls := calls s |}.

Definition with_viewValue (v : JsVal) (s : State) : State :=
  {| scope_options := scope_options s; scope_details := scope_details s;
     scope_placeId := scope_placeId s;
     scope_initialAddress := scope_initialAddress s;
     scope_gPlace := scope_gPlace s; viewValue := v;
     element_value := element_value s; element_focused := element_focused s;
     focusout := focusout s; watchEnter := watchEnter s; opts := opts s;
     listeners := listeners s; calls := calls s |}.

Definition with_element (text : string) (focused : bool)
    (handlers : list JsVal) (s : State) : State :=
  {| scope_options := scope_options s; scope_details := scope_details s;
     scope_placeId := scope_placeId s;
     scope_initialAddress := scope_initialAddress s;
     scope_gPlace := scope_gPlace s; viewValue := viewValue s;
     element_value := text; element_focused := focused;
     focusout := handlers; watchEnter := watchEnter s; opts := opts s;
     listeners := listeners s; calls := calls s |}.

Definition with_locals (we : bool) (o : list (string * JsVal)) (s : State)
  : State :=
  {| scope_options := scope_options s; scope_details := scope_details s;
     scope_placeId := scope_placeId s;
     scope_initialAddress := scope_initialAddress s;
     scope_gPlace := scope_gPlace s; viewValue := viewValue s;
     element_value := element_value s; element_focused := element_focused s;
     focusout := focusout s; watchEnter := we; opts := o;
     listeners := listeners s; calls := calls s |}.

Definition with_listeners (l : list Listener) (s : State) : State :=
  {| scope_options := scope_options s; scope_details := scope_details s;
     scope_placeId := scope_placeId s;
     scope_initialAddress := scope_initialAddress s;
     scope_gPlace := scope_gPlace s; viewValue := viewValue s;
     element_value := element_value s; element_focused := element_focused s;
     focusout := focusout s; watchEnter := watchEnter s; opts := opts s;
     listeners := l; calls := calls s |}.

Definition with_calls (c : list Call) (s : State) : State :=
  {| scope_options := scope_options s; scope_details := scope_details s;
     scope_placeId := scope_placeId s;
     scope_initialAddress := scope_initialAddress s;
     scope_gPlace := scope_gPlace s; viewValue := viewValue s;
     element_value := element_value s; element_focused := element_focused s;
     focusout := focusout s; watchEnter := watchEnter s; opts := opts s;
     listeners := listeners s; calls := c |}.

(** The host's side of the bindings: what the page assigns to the isolate
    scope's [options], [placeId] and [initialAddress]. *)
Definition with_bindings (o p a : JsVal) (s : State) : State :=
  {| scope_options := o; scope_details := scope_details s;
     scope_placeId := p; scope_initialAddress := a;
     scope_gPlace := scope_gPlace s; viewValue := viewValue s;
     element_value := element_value s; element_focused := element_focused s;
     focusout := focusout s; watchEnter := watchEnter s; opts := opts s;
     listeners := listeners s; calls := calls s |}.

(** ** The monad: shared state, and an exception that keeps the state *)

Inductive Outcome (A : Type) : Type :=
| Done (a : A) (s : State)
| Threw (e : JsError) (s : State).
Arguments Done {A} a s.
Arguments Threw {A} e s.

Definition M (A : Type) : Type := State -> Outcome A.

Definition ret {A} (a : A) : M A := fun s => Done a s.

Definition bind {A B} (m : M A) (k : A -> M B) : M B :=
  fun s => match m s with
           | Done a s' => k a s'
           | Threw e s' => Threw e s'
           end.

Notation "x <- m ;; k" := (bind m (fun x => k))
  (at level 61, m at next level, right associativity).
Notation "m ;; k" := (bind m (fun _ => k))
  (at level 61, right associativity).

Definition lift {A} (r : Res A) : M A :=
  fun s => match r with Ok a => Done a s | Err e => Threw e s end.

Definition gets {A} (f : State -> A) : M A := fun s => Done (f s) s.

Definition modify (f : State -> State) : M unit := fun s => Done tt (f s).

Definition final_state {A} (o : Outcome A) : State :=
  match o with Done _ s => s | Threw _ s => s end.

(** One computation after the other, until one throws. *)
Fixpoint run_all (steps : list (M unit)) : M unit :=
  match steps with
  | [] => ret tt
  | m :: rest => m ;; run_all rest
  end.

Definition log (c : Call) : M unit :=
  modify (fun s => with_calls (calls s ++ [c]) s).

(** [scope.$apply(fn)], entered outside a digest: an exception thrown by
    [fn] is handed to [$exceptionHandler] and does not leave [$apply]. *)
Definition scope_apply (fn : M unit) : M unit :=
  fun s => match fn s with
           | Done _ s' => Done tt s'
           | Threw e s' => Done tt (with_calls (calls s' ++ [ExceptionHandler e]) s')
           end.

(** [controller.$setViewValue(v)]. *)
Definition setViewValue (v : JsVal) : M unit := modify (with_viewValue v).

(** [scope.gPlace.method(...)]: a method call on [undefined] throws. *)
Definition gPlace_call (method : string) (f : Widget -> Widget) : M unit :=
  fun s => match scope_gPlace s with
           | Some w => Done tt (with_gPlace (Some (f w)) s)
           | None => Threw (TypeError method) s
           end.

Definition gPlace_getPlace : M JsVal :=
  fun s => match scope_gPlace s with
           | Some w => Done (w_place w) s
           | None => Threw (TypeError "getPlace") s
           end.

Definition install (l : Listener) : M unit :=
  modify (fun s => with_listeners (listeners s ++ [l]) s).

(** ** The element (jqLite over an input) *)

Definition element_val : M JsVal := gets (fun s => JStr (element_value s)).

Definition element_on_focusout (captured : JsVal) : M unit :=
  modify (fun s => with_element (element_value s) (element_focused s)
                                (focusout s ++ [captured]) s).

(** [element.unbind('focusout')] removes every focusout handler. *)
Definition element_unbind_focusout : M unit :=
  modify (fun s => with_element (element_value s) (element_focused s) [] s).

(** ** Moves of the browser, the host page and the widget *)

(** The user puts the caret in the field. *)
Definition browser_focus : M unit :=
  modify (fun s => with_element (element_value s) true (focusout s) s).

(** [String.prototype.trim] on the code units below 256: tab, line feed,
    vertical tab, form feed, carriage return, space and no-break space are
    dropped from both ends. *)
Definition is_space (c : ascii) : bool :=
  let n := nat_of_ascii c in
  Nat.eqb n 9 || Nat.eqb n 10 || Nat.eqb n 11 || Nat.eqb n 12 ||
  Nat.eqb n 13 || Nat.eqb n 32 || Nat.eqb n 160.

Fixpoint trim_start (s : string) : string :=
  match s with
  | EmptyString => EmptyString
  | String c rest => if is_space c then trim_start rest else s
  end.

Fixpoint trim_end (s : string) : string :=
  match s with
  | EmptyString => EmptyString
  | String c rest =>
      match trim_end rest with
      | EmptyString => if is_space c then EmptyString else String c EmptyString
      | kept => String c kept
      end
  end.

Definition js_trim (s : string) : string := trim_end (trim_start s).

(** An edit of the field: the browser changes the input's value to [text],
    and ngModel's own input listener commits with [$setViewValue] what it
    makes of that text, [committed]. *)
Definition field_edited (text : string) (committed : JsVal) : M unit :=
  modify (fun s => with_element text (element_focused s) (focusout s) s) ;;
  setViewValue committed.

(** The user types into a plain text input: ngModel trims the text before it
    commits it (ngTrim is on unless the page turns it off). *)
Definition user_types (text : string) : M unit :=
  field_edited text (JStr (js_trim text)).

(** The widget decides what [getPlace()] returns from now on. *)
Definition widget_holds (place : JsVal) : M unit :=
  fun s => match scope_gPlace s with
           | Some w =>
               Done tt (with_gPlace
                          (Some {| w_types := w_types w; w_bounds := w_bounds w;
                                   w_componentRestrictions := w_componentRestrictions w;
                                   w_fields := w_fields w; w_place := place |}) s)
           | None => Done tt s
           end.

(** The page assigns the directive's bindings. *)
Definition host_binds (options placeId initialAddress : JsVal) : M unit :=
  modify (with_bindings options placeId initialAddress).

(** The ways control enters the directive's code. *)
Inductive Event : Type :=
| Attach                   (* the directive is linked to its element *)
| Key (which : Z)          (* keydown or keypress on the input *)
| PlaceChanged             (* the widget fires place_changed, by itself or
                              triggered by 'ngPlacesAutocomplete:submit' *)
| PredictionsReply (list : JsVal) (status : string)
| DetailsReply (detailsResult : JsVal) (status : string)
| GeocodeReply (results : JsVal) (status : string)
| OptionsChanged           (* a digest finds scope.options changed *)
| PlaceIdChanged           (* a digest finds scope.placeId changed *)
| InitialAddressChanged    (* a digest finds scope.initialAddress changed *)
| ModelChanged             (* ngModel calls $render *)
| FocusLost.               (* the input loses focus *)

(** What the link function takes from the language runtime and from the Maps
    client without defining it: the coercions of a value that is not already
    a string or a number, which the directive reaches only through
    [element.val(v)] and through [x > 0], and the constant
    [google.maps.GeocoderStatus.OK]. *)
Class Runtime : Type := {
  ToString : JsVal -> string;
  ToNumber : JsVal -> JsNum;
  GeocoderStatus_OK : string
}.

Section Link.

Context {rt : Runtime}.

(** What [element.val(v)] leaves in the input.  jqLite reads instead of
    writing when [v] is [undefined]; the DOM stores [null] as the empty string
    and any other value as its string. *)
Definition val_text (v : JsVal) (old : string) : string :=
  match v with
  | JUndefined => old
  | JNull => ""
  | JStr s => s
  | _ => ToString v
  end.

Definition element_val_set (v : JsVal) : M unit :=
  modify (fun s => with_element (val_text v (element_value s))
                                (element_focused s) (focusout s) s).

(** [x > 0]. *)
Definition js_gt_zero (x : JsVal) : bool :=
  match x with
  | JUndefined | JNull => false
  | JBool b => b
  | JNum n => num_gt_zero n
  | _ => num_gt_zero (ToNumber x)
  end.

(** [x === 0]. *)
Definition js_is_zero (x : JsVal) : bool :=
  match x with
  | JNum n => num_is_zero n
  | _ => false
  end.

(** The one-shot handler both resolution paths register:
    [function (event) { element.val(r.formatted_address); element.unbind('focusout'); }].
    [captured] is the [formatted_address] of the result the closure holds,
    the value the registering code has just read from it. *)
Definition focusout_handler (captured : JsVal) : M unit :=
  element_val_set captured ;;
  element_unbind_focusout.

(** A focusout event reaches every handler that was bound when it was
    dispatched, in the order they were bound. *)
Fixpoint run_handlers (hs : list JsVal) : M unit :=
  match hs with
  | [] => ret tt
  | h :: rest => focusout_handler h ;; run_handlers rest
  end.

Definition dispatch_focusout : M unit :=
  hs <- gets focusout ;;
  run_handlers hs.

(** [element[0].blur()]: a focused input loses focus, which dispatches
    focusout; an input without focus is left alone. *)
Definition element_blur : M unit :=
  f <- gets element_focused ;;
  if f then
    modify (fun s => with_element (element_value s) false (focusout s) s) ;;
    dispatch_focusout
  else ret tt.

(** ** The link function, handler by handler *)

Definition defaultPlacesFields : JsVal :=
  JArr [ JStr "address_component"; JStr "adr_address";
         JStr "formatted_address"; JStr "geometry"; JStr "icon"; JStr "name";
         JStr "permanently_closed"; JStr "photo"; JStr "place_id";
         JStr "plus_code"; JStr "type"; JStr "url"; JStr "vicinity" ].

Definition options_prop (k : string) : M JsVal :=
  o <- gets scope_options ;;
  lift (get_prop o k).

Definition set_watchEnter (b : bool) : M unit :=
  modify (fun s => with_locals b (opts s) s).

Definition opts_set (k : string) (v : JsVal) : M unit :=
  modify (fun s => with_locals (watchEnter s) (obj_set (opts s) k v) s).

Definition opts_get (k : string) : M JsVal :=
  gets (fun s => obj_get (opts s) k).

(** [initOpts], lines 73-114. *)
Definition initOpts : M unit :=
  o <- gets scope_options ;;
  if truthy o then
    we <- options_prop "watchEnter" ;;
    (if negb (is_true we) then set_watchEnter false
     else set_watchEnter true) ;;
    types <- options_prop "types" ;;
    (if truthy types then
       opts_set "types" types ;;
       t <- opts_get "types" ;;
       gPlace_call "setTypes" (setTypes t)
     else gPlace_call "setTypes" (setTypes (JArr []))) ;;
    bounds <- options_prop "bounds" ;;
    (if truthy bounds then
       opts_set "bounds" bounds ;;
       b <- opts_get "bounds" ;;
       gPlace_call "setBounds" (setBounds b)
     else gPlace_call "setBounds" (setBounds JNull)) ;;
    country <- options_prop "country" ;;
    (if truthy country then
       opts_set "componentRestrictions" (JObj [("country", country)]) ;;
       r <- opts_get "componentRestrictions" ;;
       gPlace_call "setComponentRestrictions" (setComponentRestrictions r)
     else gPlace_call "setComponentRestrictions"
            (setComponentRestrictions JNull)) ;;
    fields <- options_prop "fields" ;;
    (if truthy fields then
       opts_set "fields" fields ;;
       f <- opts_get "fields" ;;
       gPlace_call "setFields" (setFields f)
     else gPlace_call "setFields" (setFields JNull))
  else ret tt.

(** [getPlaceDetails(list)], lines 222-237: builds the request and hands it
    to [placesService.getDetails]; the callback is [detailsresult]. *)
Definition getPlaceDetails (list : JsVal) : M unit :=
  let request := [("fields", defaultPlacesFields)] in
  placeId <- gets scope_placeId ;;
  let request :=
    if truthy placeId then obj_set request "placeId" placeId else request in
  request <-
    (if truthy list then
       first <- lift (get_index list 0) ;;
       reference <- lift (get_prop first "reference") ;;
       ret (obj_set request "reference" reference)
     else ret request) ;;
  log (GetDetails (JObj request)).

(** [detailsresult(detailsResult, placesServiceStatus)], lines 238-256.  The
    status is compared with [==]; on two strings that is string equality. *)
Definition detailsresult (detailsResult : JsVal) (placesServiceStatus : string)
  : M unit :=
  if String.eqb placesServiceStatus GeocoderStatus_OK then
    scope_apply
      (fa <- lift (get_prop detailsResult "formatted_address") ;;
       setViewValue fa ;;
       fa <- lift (get_prop detailsResult "formatted_address") ;;
       element_val_set fa ;;
       modify (with_details detailsResult) ;;
       captured <- lift (get_prop detailsResult "formatted_address") ;;
       element_on_focusout captured)
  else ret tt.

(** [initPlace], lines 116-120. *)
Definition initPlace : M unit :=
  placeId <- gets scope_placeId ;;
  if truthy placeId then getPlaceDetails JUndefined else ret tt.

(** [initInitialAddress], lines 122-128 and 153: up to the call of
    [geocoder.geocode]; the callback is [geocode_callback]. *)
Definition initInitialAddress : M unit :=
  placeId <- gets scope_placeId ;;
  if truthy placeId then
    log (ConsoleWarn "Using PlaceId to configure the Autocomplete component.")
  else
    ia <- gets scope_initialAddress ;;
    cond <-
      (if truthy ia then
         lat <- lift (get_prop ia "lat") ;;
         if truthy lat then
           lng <- lift (get_prop ia "lng") ;;
           ret (truthy lng)
         else ret false
       else ret false) ;;
    if (cond : bool) then
      location <- gets scope_initialAddress ;;
      log (Geocode (JObj [("location", location)]))
    else ret tt.

(** The callback passed to [geocoder.geocode], lines 129-152. *)
Definition geocode_callback (results : JsVal) (status : string) : M unit :=
  if String.eqb status GeocoderStatus_OK then
    r0 <- lift (get_index results 0) ;;
    if truthy r0 then
      scope_apply
        (fa <- lift (get_prop r0 "formatted_address") ;;
         setViewValue fa ;;
         fa <- lift (get_prop r0 "formatted_address") ;;
         element_val_set fa ;;
         modify (with_details r0) ;;
         captured <- lift (get_prop r0 "formatted_address") ;;
         element_on_focusout captured)
    else log (ConsoleWarn "No results found")
  else log (ConsoleWarn ("Geocoder failed due to: " ++ status)).

(** The keydown/keypress handler, lines 156-162. *)
Definition on_key (which : Z) : M unit :=
  if Z.eqb which 13 then
    scope_apply (v <- element_val ;; setViewValue v)
  else ret tt.

(** [getPlace(result)], lines 194-203 and 216: up to the call of
    [autocompleteService.getPlacePredictions]; the callback is
    [listentoresult]. *)
Definition getPlace (result : JsVal) : M unit :=
  name <- lift (get_prop result "name") ;;
  len <- lift (get_prop name "length") ;;
  if js_gt_zero len then
    input <- lift (get_prop result "name") ;;
    name <- lift (get_prop result "name") ;;
    offset <- lift (get_prop name "length") ;;
    componentRestrictions <- opts_get "componentRestrictions" ;;
    types <- options_prop "types" ;;
    log (GetPlacePredictions
           (JObj [("input", input); ("offset", offset);
                  ("componentRestrictions", componentRestrictions);
                  ("types", if truthy types then types else JArr [])]))
  else ret tt.

(** [listentoresult(list, status)], lines 204-215. *)
Definition listentoresult (list : JsVal) (status : string) : M unit :=
  cond <-
    (if is_null list then ret true
     else len <- lift (get_prop list "length") ;; ret (js_is_zero len)) ;;
  if (cond : bool) then
    scope_apply
      (log (Emit "ngPlacesAutocomplete:no-results") ;;
       modify (with_details JNull))
  else getPlaceDetails list.

(** The [place_changed] listener, lines 173-189. *)
Definition on_place_changed : M unit :=
  result <- gPlace_getPlace ;;
  cond <-
    (if truthy result then
       ac <- lift (get_prop result "address_components") ;;
       ret (truthy ac)
     else ret false) ;;
  if (cond : bool) then
    scope_apply
      (modify (with_details result) ;;
       v <- element_val ;;
       setViewValue v)
  else
    we <- gets watchEnter ;;
    if (we : bool) then
      name <- gets viewValue ;;
      getPlace (JObj [("name", name)]) ;;
      element_blur
    else ret tt.

(** [controller.$render], lines 260-263. *)
Definition render : M unit :=
  location <- gets viewValue ;;
  element_val_set location.

(** The body of [link], lines 48-71, 156-173, 260 and 266-289, run once when
    the directive is attached to its element. *)
Definition link : M unit :=
  modify (with_locals false []) ;;
  install OnKey ;;
  g <- gets scope_gPlace ;;
  (match g with
   | None =>
       modify (with_gPlace (Some new_Autocomplete)) ;;
       fields <- options_prop "fields" ;;
       if is_undefined fields then
         gPlace_call "setFields" (setFields defaultPlacesFields)
       else ret tt
   | Some _ => ret tt
   end) ;;
  install OnPlaceChanged ;;
  install Render ;;
  install WatchOptions ;;
  install WatchPlace ;;
  install WatchAddress ;;
  install OnSubmit.

(** ** What the host and the browser do around the handlers *)

(** An Enter key in the field while the dropdown has no selected entry: the
    directive's key handler runs, then the widget fires [place_changed]. *)
Definition press_enter : M unit :=
  on_key 13 ;;
  on_place_changed.

(** ngModel's own watch, which a digest runs before the directive's: a
    model that differs from the controller's is formatted, the result
    becomes [$viewValue] without going through [$setViewValue], and
    [$render] is called. *)
Definition ngModel_watch (formatted : JsVal) : M unit :=
  modify (with_viewValue formatted) ;;
  render.

(** The first digest after [link]: ngModel formats the model the page holds
    into [formatted]; then each watch listener of the directive runs once,
    in the order the watches were registered, and the digest catches what a
    listener throws. *)
Definition first_digest (formatted : JsVal) : M unit :=
  ngModel_watch formatted ;;
  scope_apply initOpts ;;
  scope_apply initPlace ;;
  scope_apply initInitialAddress.

(** The user leaves the field. *)
Definition browser_focusout : M unit :=
  modify (fun s => with_element (element_value s) false (focusout s) s) ;;
  dispatch_focusout.

(** One entry into the directive.  A watch listener runs inside a digest,
    which catches what it throws. *)
Definition handle (ev : Event) : M unit :=
  match ev with
  | Attach => link
  | Key which => on_key which
  | PlaceChanged => on_place_changed
  | PredictionsReply list status => listentoresult list status
  | DetailsReply detailsResult status => detailsresult detailsResult status
  | GeocodeReply results status => geocode_callback results status
  | OptionsChanged => scope_apply initOpts
  | PlaceIdChanged => scope_apply initPlace
  | InitialAddressChanged => scope_apply initInitialAddress
  | ModelChanged => render
  | FocusLost => browser_focusout
  end.

(** ** Vocabulary of the statements *)

(** The listener's test [result && result.address_components]. *)
Definition address_components_present (result : JsVal) : bool :=
  truthy result &&
  match get_prop result "address_components" with
  | Ok ac => truthy ac
  | Err _ => false
  end.

(** [v.k] where the read cannot throw. *)
Definition read (v : JsVal) (k : string) : JsVal :=
  match get_prop v k with
  | Ok x => x
  | Err _ => JUndefined
  end.

(** The text the field shows once the given focusout handlers have run over
    it, oldest first. *)
Definition settled_text (handlers : list JsVal) (text : string) : string :=
  fold_left (fun t captured => val_text captured t) handlers text.

(** The call carries the directive's fixed field list, if it is a details
    request. *)
Definition asks_default_fields (c : Call) : Prop :=
  match c with
  | GetDetails request => get_prop request "fields" = Ok defaultPlacesFields
  | _ => True
  end.

(** Whatever the computation does, it only appends calls, and each appended
    call satisfies [P]. *)
Definition appends {A} (P : Call -> Prop) (m : M A) : Prop :=
  forall st, exists new,
    calls (final_state (m st)) = calls st ++ new /\ Forall P new.

(** ** Vocabulary of the further statements *)

(** The first binding of [k] in an object literal holds [v]. *)
Fixpoint obj_binds (fields : list (string * JsVal)) (k : string) (v : JsVal)
  : Prop :=
  match fields with
  | [] => False
  | (k', v') :: rest => if String.eqb k' k then v' = v else obj_binds rest k v
  end.

(** What [initOpts] leaves in [opts] and on the widget for a truthy Options
    value [o]: each truthy sub-option is recorded and applied, a falsy one
    leaves [opts] alone and clears the widget's filter. *)
Definition synced_opts (o : JsVal) (os : list (string * JsVal))
  : list (string * JsVal) :=
  let os := if truthy (read o "types")
            then obj_set os "types" (read o "types") else os in
  let os := if truthy (read o "bounds")
            then obj_set os "bounds" (read o "bounds") else os in
  let os := if truthy (read o "country")
            then obj_set os "componentRestrictions"
                         (JObj [("country", read o "country")])
            else os in
  if truthy (read o "fields")
  then obj_set os "fields" (read o "fields") else os.

Definition synced_widget (o : JsVal) (w : Widget) : Widget :=
  {| w_types := if truthy (read o "types") then read o "types" else JArr [];
     w_bounds := if truthy (read o "bounds") then read o "bounds" else JNull;
     w_componentRestrictions :=
       if truthy (read o "country")
       then JObj [("country", read o "country")] else JNull;
     w_fields := if truthy (read o "fields") then read o "fields" else JNull;
     w_place := w_place w |}.

(** The Bound Value is the text the field shows. *)
Definition in_sync (st : State) : Prop :=
  viewValue st = JStr (element_value st).

(** The three bindings the page owns. *)
Definition bindings (st : State) : JsVal * JsVal * JsVal :=
  (scope_options st, scope_placeId st, scope_initialAddress st).

(** The computation leaves the observation [f] of the state as it was,
    whether it returns or throws. *)
Definition keeps {A B} (f : State -> B) (m : M A) : Prop :=
  forall st, f (final_state (m st)) = f st.

(** Which call an entry into the directive may make. *)
Definition may_call (ev : Event) (c : Call) : Prop :=
  match c with
  | ExceptionHandler _ => True
  | GetPlacePredictions _ =>
      match ev with PlaceChanged => True | _ => False end
  | GetDetails _ =>
      match ev with PredictionsReply _ _ | PlaceIdChanged => True | _ => False end
  | Geocode _ =>
      match ev with InitialAddressChanged => True | _ => False end
  | ConsoleWarn _ =>
      match ev with
      | GeocodeReply _ _ | InitialAddressChanged => True
      | _ => False
      end
  | Emit _ =>
      match ev with PredictionsReply _ _ => True | _ => False end
  end.

(** The address a reply would write is a string. *)
Definition writes_string (result : JsVal) : Prop :=
  forall fa, get_prop result "formatted_address" = Ok fa ->
             exists s, fa = JStr s.

(** The entries after which the Bound Value can differ from the field even
    though it did not before: a focus loss or a [place_changed] while a
    focusout handler is pending, and an OK reply whose address is not a
    string. *)
Definition sync_safe (ev : Event) (st : State) : Prop :=
  match ev with
  | FocusLost | PlaceChanged => focusout st = []
  | DetailsReply detailsResult status =>
      status = GeocoderStatus_OK -> writes_string detailsResult
  | GeocodeReply results status =>
      status = GeocoderStatus_OK ->
      forall r0, get_index results 0 = Ok r0 -> writes_string r0
  | _ => True
  end.

End Link.

(** ** Concrete worlds *)

(** A runtime to run the handlers with: objects print as JavaScript prints a
    plain object, nothing that is not a number converts to one, and the Maps
    client's OK status is the string it documents. *)
Definition sample_runtime : Runtime :=
  {| ToString := fun _ => "[object Object]";
     ToNumber := fun _ => NaN;
     GeocoderStatus_OK := "OK" |}.

(** The world in which [link] is entered: a fresh isolate scope carrying the
    page's bindings, a new ngModel controller (whose [$viewValue] starts as
    NaN) and an untouched input. *)
Definition attached (options placeId initialAddress : JsVal) : State :=
  {| scope_options := options; scope_details := JUndefined;
     scope_placeId := placeId; scope_initialAddress := initialAddress;
     scope_gPlace := None; viewValue := JNum NaN;
     element_value := ""; element_focused := false; focusout := [];
     watchEnter := false; opts := []; listeners := []; calls := [] |}.

Definition all_listeners : list Listener :=
  [OnKey; OnPlaceChanged; Render; WatchOptions; WatchPlace; WatchAddress;
   OnSubmit].

(** A linked directive at rest: the given bindings, widget, bound value and
    field text, the field focused, no pending focusout handler. *)
Definition at_rest (options placeId : JsVal) (w : Widget) (we : bool)
    (bound : JsVal) (text : string) : State :=
  {| scope_options := options; scope_details := JUndefined;
     scope_placeId := placeId; scope_initialAddress := JUndefined;
     scope_gPlace := Some w; viewValue := bound;
     element_value := text; element_focused := true; focusout := [];
     watchEnter := we; opts := []; listeners := all_listeners; calls := [] |}.

Definition widget_with_place (place : JsVal) : Widget :=
  {| w_types := JArr []; w_bounds := JNull; w_componentRestrictions := JNull;
     w_fields := JNull; w_place := place |}.

(** A selection of the Eiffel Tower suggestion.  The widget has written the
    suggestion's description into the field; the place it resolved carries
    the postal form of the address. *)
Definition eiffel_place : JsVal :=
  JObj [("address_components",
         JArr [JObj [("long_name", JStr "Paris"); ("short_name", JStr "Paris")]]);
        ("formatted_address", JStr "Av. Gustave Eiffel, 75007 Paris, France");
        ("name", JStr "Eiffel Tower")].

Definition eiffel_selected : State :=
  at_rest (JObj []) JUndefined (widget_with_place eiffel_place) false
          (JStr "eiff") "Eiffel Tower, Avenue Gustave Eiffel, Paris, France".

(** A linked directive whose InitialAddress is a point on the equator, north
    of Nanyuki, and whose PlaceId is not bound. *)
Definition equator_address : JsVal :=
  JObj [("lat", JNum (Fin 0%Q)); ("lng", JNum (Fin (3707 # 100)%Q))].

Definition equator_bound : State :=
  with_bindings (JObj []) JUndefined equator_address
    (at_rest (JObj []) JUndefined (widget_with_place JUndefined) false
             JUndefined "").

(** Options that turn [watchEnter] on, and the place the widget hands out
    when Enter is pressed on typed text with no dropdown entry selected. *)
Definition watching_options : JsVal := JObj [("watchEnter", JBool true)].

Definition typed_name (text : string) : JsVal := JObj [("name", JStr text)].

(** The page attaches the directive with the given bindings, the first
    digest runs, and the user types into the field. *)
Definition typed_into (options placeId : JsVal) (text : string) : State :=
  final_state
    (run_all [ link; first_digest (rt := sample_runtime) JUndefined; browser_focus; user_types text;
               widget_holds (typed_name text) ]
       (attached options placeId JUndefined)).

Definition paris_prediction : JsVal :=
  JObj [("description", JStr "Paris, France"); ("reference", JStr "ref-paris")].

Definition paris_details : JsVal :=
  JObj [("formatted_address", JStr "Paris, France"); ("name", JStr "Paris")].

(** A second search: the first one, for "par", was resolved by Enter to
    Paris; the user has come back to the field and typed "zzzz". *)
Definition second_search : State :=
  final_state
    (run_all [ press_enter (rt := sample_runtime);
               listentoresult (JArr [paris_prediction]) "OK";
               detailsresult (rt := sample_runtime) paris_details "OK";
               browser_focus; user_types "zzzz";
               widget_holds (typed_name "zzzz") ]
       (typed_into watching_options JUndefined "par")).

(** Filters were set from Options; then the page withdrew the Options
    binding. *)
Definition filter_options : JsVal :=
  JObj [("types", JStr "geocode"); ("country", JStr "ca")].

Definition options_withdrawn : State :=
  final_state
    (run_all [ link; first_digest (rt := sample_runtime) JUndefined; host_binds JUndefined JUndefined JUndefined ]
       (attached filter_options JUndefined JUndefined)).

(** Both a PlaceId and an InitialAddress are bound. *)
Definition new_york : JsVal :=
  JObj [("lat", JNum (Fin (407128 # 10000)%Q));
        ("lng", JNum (Fin (- (740059 # 10000))%Q))].

Definition both_bound : State :=
  final_state (link (attached (JObj []) (JStr "abc123") new_york)).

(** ** Further concrete worlds *)

(** Options restricted predictions to Canada with [watchEnter] on; the page
    has just replaced them by Options without a country, and the Options
    watch has not run yet. *)
Definition country_withdrawn : State :=
  final_state
    (run_all [ link; first_digest (rt := sample_runtime) JUndefined;
               host_binds watching_options JUndefined JUndefined ]
       (attached (JObj [("watchEnter", JBool true); ("country", JStr "ca")])
                 JUndefined JUndefined)).

(** A linked directive whose InitialAddress is lower Manhattan, and the
    first result a geocoder gives for it. *)
Definition address_bound : State :=
  final_state (link (attached (JObj []) JUndefined new_york)).

Definition park_row : JsVal :=
  JObj [("formatted_address", JStr "150 Park Row, New York, NY");
        ("place_id", JStr "ChIJ-park-row")].

(** A linked directive whose InitialAddress has a latitude and nothing
    else. *)
Definition latitude_only : State :=
  final_state
    (link (attached (JObj []) JUndefined
             (JObj [("lat", JNum (Fin (407128 # 10000)%Q))]))).

(** A linked directive with [watchEnter] on whose field was never touched:
    ngModel has formatted the undefined model into an undefined
    [$viewValue]. *)
Definition untouched : State :=
  at_rest watching_options JUndefined (widget_with_place JUndefined) true
          JUndefined "".

(** A linked directive whose Options supply a field list of their own and
    turn [watchEnter] on, with a PlaceId bound. *)
Definition own_fields : JsVal := JArr [JStr "name"; JStr "geometry"].

Definition fields_supplied : State :=
  final_state
    (link (attached (JObj [("watchEnter", JBool true); ("fields", own_fields)])
                    (JStr "abc123") JUndefined)).

(** * Properties *)

Section Properties.

Context {rt : Runtime}.

(** Reads of object literals and of [length], computed without unfolding
    anything else. *)
Ltac js_reads :=
  cbn [get_prop get_index obj_get obj_set nth String.eqb Ascii.eqb Bool.eqb].

(** ** Facts about values *)

Lemma get_prop_truthy (v : JsVal) (k : string) :
  truthy v = true -> exists x, get_prop v k = Ok x.
Proof.
  destruct v; simpl; intro H; try discriminate; eauto.
  - destruct (String.eqb k "length"); eauto.
  - destruct (String.eqb k "length"); eauto.
Qed.

Lemma length_gt_zero (s : string) :
  s <> "" -> js_gt_zero (JNum (num_of_nat (String.length s))) = true.
Proof.
  destruct s as [|c s]; [congruence|intros _].
  reflexivity.
Qed.

Lemma read_get_prop (v : JsVal) (k : string) :
  truthy v = true -> get_prop v k = Ok (read v k).
Proof.
  intro H. destruct (get_prop_truthy v k H) as [x Hx].
  unfold read. rewrite Hx. reflexivity.
Qed.

Lemma obj_get_set_same (fs : list (string * JsVal)) (k : string) (v : JsVal) :
  obj_get (obj_set fs k v) k = v.
Proof.
  induction fs as [|[k' v'] fs IH]; simpl.
  - rewrite String.eqb_refl. reflexivity.
  - destruct (String.eqb k' k) eqn:E; simpl.
    + rewrite String.eqb_refl. reflexivity.
    + rewrite E. exact IH.
Qed.

(** ** The one-shot focusout handlers *)

Lemma run_handlers_run (hs : list JsVal) (st : State) :
  hs <> [] ->
  run_handlers hs st =
    Done tt (with_element (settled_text hs (element_value st))
                          (element_focused st) [] st).
Proof.
  revert st. induction hs as [|h rest IH]; intros st Hne; [congruence|].
  destruct rest as [|h' rest'].
  - reflexivity.
  - change (run_handlers (h :: h' :: rest') st)
      with (run_handlers (h' :: rest')
              (with_element (val_text h (element_value st))
                            (element_focused st) [] st)).
    rewrite IH by discriminate. reflexivity.
Qed.

Lemma element_blur_run (st : State) :
  element_focused st = true ->
  element_blur st =
    Done tt (with_element (settled_text (focusout st) (element_value st))
                          false [] st).
Proof.
  intro Hf. unfold element_blur, dispatch_focusout, bind, gets, modify.
  rewrite Hf. simpl focusout.
  destruct (focusout st) as [|h rest] eqn:E.
  - simpl. destruct st; simpl in *. subst. reflexivity.
  - rewrite run_handlers_run by discriminate. reflexivity.
Qed.

Lemma element_blur_idle (st : State) :
  element_focused st = false -> element_blur st = Done tt st.
Proof.
  intro Hf. unfold element_blur, bind, gets. rewrite Hf. reflexivity.
Qed.

(** A blur touches nothing but the element, leaves it without focus, and
    does not change its text when no handler is pending. *)
Lemma element_blur_frame (st : State) :
  exists text,
    element_blur st =
      Done tt (with_element text false
                 (if element_focused st then [] else focusout st) st) /\
    (focusout st = [] -> text = element_value st).
Proof.
  destruct (element_focused st) eqn:Hf.
  - exists (settled_text (focusout st) (element_value st)).
    split; [apply element_blur_run; exact Hf|].
    intro H. rewrite H. reflexivity.
  - exists (element_value st). split.
    + rewrite element_blur_idle by exact Hf.
      destruct st; simpl in *. subst. reflexivity.
    + reflexivity.
Qed.

(** ** The dropdown selection *)

Lemma on_place_changed_run (st : State) (w : Widget) :
  scope_gPlace st = Some w ->
  on_place_changed st =
    if address_components_present (w_place w) then
      Done tt (with_viewValue (JStr (element_value st))
                 (with_details (w_place w) st))
    else if watchEnter st then
      (getPlace (JObj [("name", viewValue st)]) ;; element_blur) st
    else Done tt st.
Proof.
  intro Hg.
  unfold on_place_changed, address_components_present, gPlace_getPlace, bind.
  rewrite Hg.
  destruct (truthy (w_place w)) eqn:Ht; simpl.
  - destruct (get_prop_truthy _ "address_components" Ht) as [ac Hac].
    rewrite Hac. simpl. destruct (truthy ac); simpl.
    + reflexivity.
    + unfold gets. destruct (watchEnter st); reflexivity.
  - unfold gets. destruct (watchEnter st); reflexivity.
Qed.


(** C1 (amended): a [place_changed] event whose place has address components
    stores that place as Details and commits the text shown in the field as
    the Bound Value; the field is not rewritten and no service is called.
    The place's formatted address is not consulted: the Bound Value equals it
    exactly when the field already shows it. *)
Theorem place_changed_stores_selection (st : State) (w : Widget) (ac : JsVal) :
  scope_gPlace st = Some w ->
  truthy (w_place w) = true ->
  get_prop (w_place w) "address_components" = Ok ac ->
  truthy ac = true ->
  exists st',
    on_place_changed st = Done tt st' /\
    scope_details st' = w_place w /\
    viewValue st' = JStr (element_value st') /\
    element_value st' = element_value st /\
    calls st' = calls st /\
    (forall fa, viewValue st' = JStr fa <-> element_value st = fa).
Proof.
  intros Hg Ht Hac Htac.
  exists (with_viewValue (JStr (element_value st)) (with_details (w_place w) st)).
  split.
  - unfold on_place_changed, gPlace_getPlace, bind, lift, ret.
    rewrite Hg, Ht, Hac, Htac. reflexivity.
  - simpl. repeat split; try reflexivity; intro H; congruence.
Qed.

(** ** Failed lookups *)

(** C7: a details reply or a geocode reply whose status is not OK changes
    neither the field text, nor the Bound Value, nor Details; the details
    callback does nothing at all, the geocode callback only writes one
    console warning; neither throws. *)
Theorem failed_lookup_changes_nothing
    (st : State) (answer : JsVal) (status : string) :
  status <> GeocoderStatus_OK ->
  detailsresult answer status st = Done tt st /\
  exists st',
    geocode_callback answer status st = Done tt st' /\
    calls st' = calls st ++ [ConsoleWarn ("Geocoder failed due to: " ++ status)] /\
    element_value st' = element_value st /\
    viewValue st' = viewValue st /\
    scope_details st' = scope_details st /\
    focusout st' = focusout st.
Proof.
  intro Hne. apply String.eqb_neq in Hne.
  unfold detailsresult, geocode_callback. rewrite Hne. split.
  - reflexivity.
  - eexists. split; [reflexivity|]. simpl. repeat split.
Qed.

(** ** The initial value *)

(** C5: with a PlaceId bound, whatever the InitialAddress is, the PlaceId
    watch issues one details request keyed by the PlaceId alone, the
    InitialAddress watch only warns, and together they call no geocoder. *)
Theorem placeId_takes_precedence (st : State) :
  truthy (scope_placeId st) = true ->
  initPlace st =
    Done tt (with_calls
               (calls st ++
                [GetDetails (JObj [("fields", defaultPlacesFields);
                                   ("placeId", scope_placeId st)])]) st) /\
  initInitialAddress st =
    Done tt (with_calls
               (calls st ++
                [ConsoleWarn "Using PlaceId to configure the Autocomplete component."])
               st) /\
  exists st',
    (scope_apply initPlace ;; scope_apply initInitialAddress) st = Done tt st' /\
    calls st' =
      calls st ++
      [GetDetails (JObj [("fields", defaultPlacesFields);
                         ("placeId", scope_placeId st)]);
       ConsoleWarn "Using PlaceId to configure the Autocomplete component."] /\
    element_value st' = element_value st.
Proof.
  intro Hp.
  assert (H1 : initPlace st =
    Done tt (with_calls
               (calls st ++
                [GetDetails (JObj [("fields", defaultPlacesFields);
                                   ("placeId", scope_placeId st)])]) st)).
  { unfold initPlace, getPlaceDetails, bind, gets. rewrite Hp. simpl.
    rewrite Hp. reflexivity. }
  assert (H2 : forall s, truthy (scope_placeId s) = true ->
    initInitialAddress s =
    Done tt (with_calls
               (calls s ++
                [ConsoleWarn "Using PlaceId to configure the Autocomplete component."])
               s)).
  { intros s Hs. unfold initInitialAddress, bind, gets. rewrite Hs. reflexivity. }
  split; [exact H1|]. split; [apply H2; exact Hp|].
  eexists. split.
  - unfold bind, scope_apply. rewrite H1. rewrite H2 by exact Hp. reflexivity.
  - simpl. rewrite <- app_assoc. split; reflexivity.
Qed.

(** ** Enter without [watchEnter] *)

Lemma on_key_enter_run (st : State) :
  on_key 13 st = Done tt (with_viewValue (JStr (element_value st)) st).
Proof. reflexivity. Qed.

(** The handler is bound to keydown and to keypress; the second run of an
    Enter press repeats the first. *)
Lemma on_key_twice (st : State) :
  (on_key 13 ;; on_key 13) st = on_key 13 st.
Proof. reflexivity. Qed.

(** C8: while the [watchEnter] flag is off, an Enter press (the key handler
    followed by the widget's [place_changed], whatever place the widget
    holds) makes no call at all, leaves the field as it is and commits its
    literal text as the Bound Value; so does a [place_changed] that arrives
    on its own, unless it finds no address components and commits nothing. *)
Theorem plain_enter_only_commits_text (st : State) (w : Widget) :
  watchEnter st = false ->
  scope_gPlace st = Some w ->
  (exists st',
     press_enter st = Done tt st' /\
     calls st' = calls st /\
     viewValue st' = JStr (element_value st) /\
     element_value st' = element_value st) /\
  (exists st',
     on_place_changed st = Done tt st' /\
     calls st' = calls st /\
     element_value st' = element_value st /\
     (viewValue st' = JStr (element_value st) \/ viewValue st' = viewValue st)).
Proof.
  intros Hwe Hg. split.
  - unfold press_enter, bind. rewrite on_key_enter_run.
    rewrite (on_place_changed_run _ w) by exact Hg.
    simpl watchEnter. rewrite Hwe.
    destruct (address_components_present (w_place w));
      eexists; (split; [reflexivity|]); simpl; repeat split.
  - rewrite (on_place_changed_run _ w) by exact Hg. rewrite Hwe.
    destruct (address_components_present (w_place w));
      eexists; (split; [reflexivity|]); simpl; repeat split; auto.
Qed.

(** ** The optional Options binding *)

Lemma getPlace_without_options (st : State) (name : string) :
  scope_options st = JUndefined ->
  name <> "" ->
  getPlace (JObj [("name", JStr name)]) st = Threw (TypeError "types") st.
Proof.
  intros Ho Hn. unfold getPlace, bind, lift. js_reads.
  rewrite (length_gt_zero name Hn).
  unfold opts_get, options_prop, bind, gets, lift. rewrite Ho. reflexivity.
Qed.

(** C9: with Options undefined, [link] on a fresh scope constructs the widget
    and then throws a TypeError on reading [fields]: the default field list
    is never set and no listener but the key handler is installed; and the
    prediction query of an Enter press throws a TypeError on reading [types]
    before any request is made. *)
Theorem options_binding_is_required (st : State) :
  scope_options st = JUndefined ->
  (scope_gPlace st = None ->
   exists st' w,
     link st = Threw (TypeError "fields") st' /\
     scope_gPlace st' = Some w /\
     w_fields w = JUndefined /\
     listeners st' = listeners st ++ [OnKey] /\
     calls st' = calls st) /\
  (forall name, name <> "" ->
     getPlace (JObj [("name", JStr name)]) st = Threw (TypeError "types") st) /\
  (forall w,
     scope_gPlace st = Some w ->
     address_components_present (w_place w) = false ->
     watchEnter st = true ->
     element_value st <> "" ->
     exists st',
       press_enter st = Threw (TypeError "types") st' /\
       calls st' = calls st).
Proof.
  intro Ho. split; [|split].
  - intro Hg. exists (with_gPlace (Some new_Autocomplete)
                        (with_listeners (listeners st ++ [OnKey])
                           (with_locals false [] st))), new_Autocomplete.
    split.
    + destruct st; simpl in Ho, Hg; subst. reflexivity.
    + simpl. repeat split.
  - intros name Hn. apply getPlace_without_options; assumption.
  - intros w Hg Hac Hwe Hne.
    exists (with_viewValue (JStr (element_value st)) st). split.
    + unfold press_enter, bind. rewrite on_key_enter_run.
      rewrite (on_place_changed_run _ w) by exact Hg.
      rewrite Hac. simpl watchEnter. rewrite Hwe.
      unfold bind. simpl viewValue.
      rewrite getPlace_without_options by (simpl; assumption).
      reflexivity.
    + reflexivity.
Qed.

(** ** The configuration synchronizer *)

(** C4 (amended): when the Options value is truthy, [initOpts] applies every
    truthy sub-option to the widget and clears the filter of every other one
    (types to the empty list, bounds, country restriction and fields to
    null), whatever the widget held before, and sets the [watchEnter] flag to
    whether Options.watchEnter is exactly [true]; when the Options value is
    undefined (or otherwise falsy), [initOpts] does nothing at all. *)
Theorem initOpts_applies_or_clears (st : State) (w : Widget) :
  scope_gPlace st = Some w ->
  (truthy (scope_options st) = false -> initOpts st = Done tt st) /\
  (truthy (scope_options st) = true ->
   exists st' w',
     initOpts st = Done tt st' /\
     scope_gPlace st' = Some w' /\
     w_types w' =
       (if truthy (read (scope_options st) "types")
        then read (scope_options st) "types" else JArr []) /\
     w_bounds w' =
       (if truthy (read (scope_options st) "bounds")
        then read (scope_options st) "bounds" else JNull) /\
     w_componentRestrictions w' =
       (if truthy (read (scope_options st) "country")
        then JObj [("country", read (scope_options st) "country")] else JNull) /\
     w_fields w' =
       (if truthy (read (scope_options st) "fields")
        then read (scope_options st) "fields" else JNull) /\
     watchEnter st' = is_true (read (scope_options st) "watchEnter") /\
     w_place w' = w_place w /\
     calls st' = calls st).
Proof.
  intro Hg. split; intro Ht.
  - unfold initOpts, bind, gets. rewrite Ht. reflexivity.
  - destruct st as [o d p a g vv text foc hs we os ls cs].
    simpl in Hg, Ht |- *. subst g.
    unfold initOpts, options_prop, bind, gets, lift. simpl. rewrite Ht.
    repeat match goal with
           | |- context [get_prop o ?k] => rewrite (read_get_prop o k Ht)
           | H : is_true (read o ?k) = _ |- context [is_true (read o ?k)] =>
               rewrite H
           | H : truthy (read o ?k) = _ |- context [truthy (read o ?k)] =>
               rewrite H
           | |- context [is_true (read o ?k)] =>
               destruct (is_true (read o k)) eqn:?
           | |- context [truthy (read o ?k)] =>
               destruct (truthy (read o k)) eqn:?
           | _ => progress simpl
           end;
      rewrite ?obj_get_set_same;
      do 2 eexists; (split; [reflexivity|]); simpl; repeat split.
Qed.

(** ** Enter with [watchEnter] *)

Lemma positive_length_is_not_zero (n : nat) :
  js_is_zero (JNum (num_of_nat (S n))) = false.
Proof. reflexivity. Qed.

Lemma getPlace_run (st : State) (name : string) (types : JsVal) :
  name <> "" ->
  get_prop (scope_options st) "types" = Ok types ->
  getPlace (JObj [("name", JStr name)]) st =
    Done tt
      (with_calls
         (calls st ++
          [GetPlacePredictions
             (JObj [("input", JStr name);
                    ("offset", JNum (num_of_nat (String.length name)));
                    ("componentRestrictions",
                     obj_get (opts st) "componentRestrictions");
                    ("types", if truthy types then types else JArr [])])])
         st).
Proof.
  intros Hn Ho. unfold getPlace, bind, lift. js_reads.
  rewrite (length_gt_zero name Hn).
  unfold opts_get, options_prop, bind, gets, lift. rewrite Ho. reflexivity.
Qed.

Lemma getPlace_empty (st : State) :
  getPlace (JObj [("name", JStr "")]) st = Done tt st.
Proof. reflexivity. Qed.

(** The request [getPlaceDetails] builds: the fixed field list, then the
    bound PlaceId if there is one, then the first prediction's reference if
    a list was passed. *)
Lemma getPlaceDetails_first (st : State) (first : JsVal) (rest : list JsVal)
    (reference : JsVal) :
  get_prop first "reference" = Ok reference ->
  getPlaceDetails (JArr (first :: rest)) st =
    Done tt
      (with_calls
         (calls st ++
          [GetDetails
             (JObj (if truthy (scope_placeId st)
                    then [("fields", defaultPlacesFields);
                          ("placeId", scope_placeId st);
                          ("reference", reference)]
                    else [("fields", defaultPlacesFields);
                          ("reference", reference)]))])
         st).
Proof.
  intro Hr. unfold getPlaceDetails, bind, gets, lift. js_reads.
  simpl truthy. rewrite Hr.
  destruct (truthy (scope_placeId st)); reflexivity.
Qed.

Lemma listentoresult_nonempty (st : State) (first : JsVal)
    (rest : list JsVal) (status : string) :
  listentoresult (JArr (first :: rest)) status st =
    getPlaceDetails (JArr (first :: rest)) st.
Proof. reflexivity. Qed.

Lemma listentoresult_none (st : State) (list : JsVal) (status : string) :
  list = JNull \/ list = JArr [] ->
  listentoresult list status st =
    Done tt (with_details JNull
               (with_calls
                  (calls st ++ [Emit "ngPlacesAutocomplete:no-results"]) st)).
Proof. intros [H|H]; subst; reflexivity. Qed.

(** What a reply with status OK does, for either lookup. *)
Lemma detailsresult_ok (st : State) (detailsResult fa : JsVal) :
  get_prop detailsResult "formatted_address" = Ok fa ->
  exists st',
    detailsresult detailsResult GeocoderStatus_OK st = Done tt st' /\
    viewValue st' = fa /\
    element_value st' = val_text fa (element_value st) /\
    scope_details st' = detailsResult /\
    focusout st' = focusout st ++ [fa] /\
    calls st' = calls st.
Proof.
  intro Hfa. unfold detailsresult. rewrite String.eqb_refl.
  unfold scope_apply, bind, lift. rewrite Hfa. simpl.
  eexists. split; [reflexivity|]. simpl. repeat split.
Qed.

Lemma press_enter_run (st : State) (w : Widget) :
  scope_gPlace st = Some w ->
  address_components_present (w_place w) = false ->
  watchEnter st = true ->
  truthy (scope_options st) = true ->
  element_value st <> "" ->
  press_enter st =
    element_blur
      (with_calls
         (calls st ++
          [GetPlacePredictions
             (JObj [("input", JStr (element_value st));
                    ("offset",
                     JNum (num_of_nat (String.length (element_value st))));
                    ("componentRestrictions",
                     obj_get (opts st) "componentRestrictions");
                    ("types",
                     if truthy (read (scope_options st) "types")
                     then read (scope_options st) "types" else JArr [])])])
         (with_viewValue (JStr (element_value st)) st)).
Proof.
  intros Hg Hac Hwe Ho Hne.
  unfold press_enter, bind. rewrite on_key_enter_run.
  rewrite (on_place_changed_run _ w) by exact Hg.
  rewrite Hac. simpl watchEnter. rewrite Hwe.
  unfold bind. simpl viewValue.
  rewrite (getPlace_run _ _ (read (scope_options st) "types"))
    by (simpl; auto using read_get_prop).
  reflexivity.
Qed.

(** C2 (amended): an Enter press with Options bound, the [watchEnter] flag
    on, no selected dropdown entry and a non-empty field issues one
    prediction query for the field text and takes the focus off the input.
    A reply with predictions issues one details request that carries the
    fixed field list and the first prediction's reference, and nothing else
    when no PlaceId is bound.  A details reply with status OK writes the
    result's formatted address to the field and to the Bound Value and
    stores the result as Details. *)
Theorem enter_resolves_first_prediction (st : State) (w : Widget) :
  scope_gPlace st = Some w ->
  address_components_present (w_place w) = false ->
  watchEnter st = true ->
  truthy (scope_options st) = true ->
  element_value st <> "" ->
  (exists st1,
     press_enter st = Done tt st1 /\
     calls st1 =
       calls st ++
       [GetPlacePredictions
          (JObj [("input", JStr (element_value st));
                 ("offset",
                  JNum (num_of_nat (String.length (element_value st))));
                 ("componentRestrictions",
                  obj_get (opts st) "componentRestrictions");
                 ("types",
                  if truthy (read (scope_options st) "types")
                  then read (scope_options st) "types" else JArr [])])] /\
     viewValue st1 = JStr (element_value st) /\
     scope_details st1 = scope_details st /\
     element_focused st1 = false) /\
  (forall s first rest reference status,
     get_prop first "reference" = Ok reference ->
     exists s' request,
       listentoresult (JArr (first :: rest)) status s = Done tt s' /\
       calls s' = calls s ++ [GetDetails (JObj request)] /\
       obj_get request "fields" = defaultPlacesFields /\
       obj_get request "reference" = reference /\
       (truthy (scope_placeId s) = false ->
        request = [("fields", defaultPlacesFields); ("reference", reference)]) /\
       element_value s' = element_value s /\
       viewValue s' = viewValue s /\
       scope_details s' = scope_details s) /\
  (forall s detailsResult fa,
     get_prop detailsResult "formatted_address" = Ok (JStr fa) ->
     exists s',
       detailsresult detailsResult GeocoderStatus_OK s = Done tt s' /\
       element_value s' = fa /\
       viewValue s' = JStr fa /\
       scope_details s' = detailsResult /\
       calls s' = calls s).
Proof.
  intros Hg Hac Hwe Ho Hne. split; [|split].
  - rewrite (press_enter_run st w) by assumption.
    match goal with |- context [element_blur ?s0] =>
      destruct (element_blur_frame s0) as (text & Hb & _)
    end.
    rewrite Hb. eexists. split; [reflexivity|]. simpl. repeat split.
  - intros s first rest reference status Hr.
    rewrite listentoresult_nonempty, (getPlaceDetails_first _ _ _ reference Hr).
    destruct (truthy (scope_placeId s)) eqn:Hp;
      do 2 eexists; (split; [reflexivity|]); simpl;
      repeat split; try reflexivity; intro; congruence.
  - intros s detailsResult fa Hfa.
    destruct (detailsresult_ok s detailsResult (JStr fa) Hfa)
      as (s' & Hrun & Hv & He & Hd & _ & Hc).
    exists s'. simpl in He. repeat split; assumption.
Qed.

(** With the caret in the field, the blur of the press runs whatever
    focusout handlers earlier resolutions left behind. *)
Lemma press_enter_runs_pending_handlers (st : State) (w : Widget) :
  scope_gPlace st = Some w ->
  address_components_present (w_place w) = false ->
  watchEnter st = true ->
  truthy (scope_options st) = true ->
  element_value st <> "" ->
  element_focused st = true ->
  exists st1,
    press_enter st = Done tt st1 /\
    element_value st1 = settled_text (focusout st) (element_value st) /\
    focusout st1 = [].
Proof.
  intros Hg Hac Hwe Ho Hne Hf.
  rewrite (press_enter_run st w) by assumption.
  rewrite element_blur_run by exact Hf.
  eexists. split; [reflexivity|]. split; reflexivity.
Qed.

(** C3 (amended): an Enter press with Options bound, the [watchEnter] flag
    on, no selected dropdown entry and a non-empty field, whose prediction
    query is answered with null or with the empty list, sets Details to null
    and emits exactly one no-results event; the reply itself never touches
    the field, and the field text is the same after the whole press provided
    no one-shot focusout handler of an earlier resolution was still pending
    when Enter was pressed. *)
Theorem enter_without_predictions
    (st : State) (w : Widget) (list : JsVal) (status : string) :
  scope_gPlace st = Some w ->
  address_components_present (w_place w) = false ->
  watchEnter st = true ->
  truthy (scope_options st) = true ->
  element_value st <> "" ->
  list = JNull \/ list = JArr [] ->
  (forall s, exists s',
     listentoresult list status s = Done tt s' /\
     scope_details s' = JNull /\
     calls s' = calls s ++ [Emit "ngPlacesAutocomplete:no-results"] /\
     element_value s' = element_value s /\
     viewValue s' = viewValue s) /\
  (focusout st = [] ->
   exists st1 st2 query,
     press_enter st = Done tt st1 /\
     calls st1 = calls st ++ [GetPlacePredictions query] /\
     listentoresult list status st1 = Done tt st2 /\
     scope_details st2 = JNull /\
     calls st2 = calls st1 ++ [Emit "ngPlacesAutocomplete:no-results"] /\
     element_value st2 = element_value st /\
     viewValue st2 = JStr (element_value st)).
Proof.
  intros Hg Hac Hwe Ho Hne Hl.
  assert (Hreply : forall s, exists s',
    listentoresult list status s = Done tt s' /\
    scope_details s' = JNull /\
    calls s' = calls s ++ [Emit "ngPlacesAutocomplete:no-results"] /\
    element_value s' = element_value s /\
    viewValue s' = viewValue s).
  { intro s. rewrite (listentoresult_none s list status Hl).
    eexists. split; [reflexivity|]. simpl. repeat split. }
  split; [exact Hreply|]. intro Hno.
  pose proof (press_enter_run st w Hg Hac Hwe Ho Hne) as Hpress.
  match type of Hpress with context [element_blur ?s0] =>
    destruct (element_blur_frame s0) as (text & Hb & Htext)
  end.
  rewrite Hb in Hpress. simpl in Htext. specialize (Htext Hno). subst text.
  match type of Hpress with _ = Done tt ?s1 =>
    destruct (Hreply s1) as (st2 & Hrun & Hd & Hc & He & Hv)
  end.
  do 3 eexists. split; [exact Hpress|]. split; [reflexivity|].
  split; [exact Hrun|]. repeat split; assumption.
Qed.

(** ** The initial address *)

Lemma initInitialAddress_geocodes (st : State) :
  truthy (scope_placeId st) = false ->
  truthy (scope_initialAddress st) = true ->
  truthy (read (scope_initialAddress st) "lat") = true ->
  truthy (read (scope_initialAddress st) "lng") = true ->
  initInitialAddress st =
    Done tt (with_calls
               (calls st ++
                [Geocode (JObj [("location", scope_initialAddress st)])]) st).
Proof.
  intros Hp Ha Hlat Hlng.
  unfold initInitialAddress, bind, gets, lift. rewrite Hp, Ha.
  rewrite !(read_get_prop _ _ Ha). rewrite Hlat, Hlng. reflexivity.
Qed.

Lemma geocode_callback_ok (st : State) (results r0 fa : JsVal) :
  get_index results 0 = Ok r0 ->
  truthy r0 = true ->
  get_prop r0 "formatted_address" = Ok fa ->
  exists st',
    geocode_callback results GeocoderStatus_OK st = Done tt st' /\
    viewValue st' = fa /\
    element_value st' = val_text fa (element_value st) /\
    scope_details st' = r0 /\
    focusout st' = focusout st ++ [fa] /\
    calls st' = calls st.
Proof.
  intros Hi Ht Hfa. unfold geocode_callback. rewrite String.eqb_refl.
  unfold scope_apply, bind, lift. rewrite Hi, Ht, Hfa. simpl.
  eexists. split; [reflexivity|]. simpl. repeat split.
Qed.

Lemma geocode_callback_empty (st : State) :
  geocode_callback (JArr []) GeocoderStatus_OK st =
    Done tt (with_calls (calls st ++ [ConsoleWarn "No results found"]) st).
Proof.
  unfold geocode_callback. rewrite String.eqb_refl. reflexivity.
Qed.

(** C6, at the failing input: an InitialAddress on the equator has both
    coordinates, yet [initInitialAddress] calls no geocoder for it, because
    the latitude 0 is falsy. *)
Theorem equator_address_is_not_geocoded :
  truthy (scope_placeId equator_bound) = false /\
  get_prop (scope_initialAddress equator_bound) "lat" = Ok (JNum (Fin 0%Q)) /\
  get_prop (scope_initialAddress equator_bound) "lng"
    = Ok (JNum (Fin (3707 # 100)%Q)) /\
  initInitialAddress equator_bound = Done tt equator_bound.
Proof. repeat split. Qed.

(** ** Every call the directive makes *)

Section Appends.

Variable P : Call -> Prop.

Lemma appends_ret {A} (a : A) : appends P (ret a).
Proof. intro st. exists []. simpl. rewrite app_nil_r. auto. Qed.

Lemma appends_lift {A} (r : Res A) : appends P (lift r).
Proof.
  intro st. exists []. unfold lift.
  destruct r; simpl; rewrite app_nil_r; auto.
Qed.

Lemma appends_gets {A} (f : State -> A) : appends P (gets f).
Proof. intro st. exists []. simpl. rewrite app_nil_r. auto. Qed.

Lemma appends_modify (f : State -> State) :
  (forall s, calls (f s) = calls s) -> appends P (modify f).
Proof.
  intros Hf st. exists []. simpl. rewrite Hf, app_nil_r. auto.
Qed.

Lemma appends_log (c : Call) : P c -> appends P (log c).
Proof. intros Hc st. exists [c]. simpl. auto. Qed.

Lemma appends_bind {A B} (m : M A) (k : A -> M B) :
  appends P m -> (forall a, appends P (k a)) -> appends P (bind m k).
Proof.
  intros Hm Hk st. destruct (Hm st) as (n1 & E1 & F1). unfold bind.
  destruct (m st) as [a s'|e s']; simpl in E1.
  - destruct (Hk a s') as (n2 & E2 & F2).
    exists (n1 ++ n2). rewrite E2, E1, app_assoc. split; [reflexivity|].
    apply Forall_app. auto.
  - exists n1. auto.
Qed.

Lemma appends_scope_apply (m : M unit) :
  (forall e, P (ExceptionHandler e)) -> appends P m -> appends P (scope_apply m).
Proof.
  intros He Hm st. destruct (Hm st) as (n1 & E1 & F1). unfold scope_apply.
  destruct (m st) as [a s'|e s']; simpl in E1 |- *.
  - exists n1. auto.
  - exists (n1 ++ [ExceptionHandler e]). rewrite E1, app_assoc.
    split; [reflexivity|]. apply Forall_app. auto.
Qed.

Lemma appends_gPlace_call (method : string) (f : Widget -> Widget) :
  appends P (gPlace_call method f).
Proof.
  intro st. exists []. unfold gPlace_call.
  destruct (scope_gPlace st); simpl; rewrite app_nil_r; auto.
Qed.

Lemma appends_gPlace_getPlace : appends P gPlace_getPlace.
Proof.
  intro st. exists []. unfold gPlace_getPlace.
  destruct (scope_gPlace st); simpl; rewrite app_nil_r; auto.
Qed.

End Appends.

(** One structural step of an [appends] goal. *)
Ltac appends_step :=
  match goal with
  | |- appends _ (bind _ _) => apply appends_bind; [|intro]
  | |- appends _ (ret _) => apply appends_ret
  | |- appends _ (lift _) => apply appends_lift
  | |- appends _ (gets _) => apply appends_gets
  | |- appends _ (modify _) => apply appends_modify; intro; reflexivity
  | |- appends _ (log _) => apply appends_log; exact I
  | |- appends _ (gPlace_call _ _) => apply appends_gPlace_call
  | |- appends _ gPlace_getPlace => apply appends_gPlace_getPlace
  | |- appends _ (scope_apply _) =>
      apply appends_scope_apply; [intro; exact I|]
  | |- appends _ (if ?b then _ else _) => destruct b
  | |- appends _ (match ?x with _ => _ end) => destruct x
  end.

Ltac appends_auto :=
  repeat first
    [ appends_step
    | progress unfold setViewValue, element_val, element_val_set,
        element_on_focusout, element_unbind_focusout, options_prop,
        set_watchEnter, opts_set, opts_get, install, focusout_handler ].

Lemma appends_getPlaceDetails (list : JsVal) :
  appends asks_default_fields (getPlaceDetails list).
Proof.
  intro st. unfold getPlaceDetails, bind, gets, lift.
  destruct (truthy (scope_placeId st)); destruct (truthy list);
    try (destruct (get_index list 0) as [first|e];
         [destruct (get_prop first "reference") as [reference|e]|]);
    simpl;
    first [ exists []; rewrite app_nil_r; split; [reflexivity|constructor]
          | eexists; split; [reflexivity|];
            constructor; [reflexivity|constructor] ].
Qed.

Lemma appends_run_handlers (P : Call -> Prop) (hs : list JsVal) :
  appends P (run_handlers hs).
Proof.
  induction hs as [|h rest IH]; simpl.
  - apply appends_ret.
  - apply appends_bind; [|intro; exact IH]. appends_auto.
Qed.

Lemma appends_element_blur (P : Call -> Prop) : appends P element_blur.
Proof.
  unfold element_blur, dispatch_focusout. appends_auto.
  apply appends_run_handlers.
Qed.

Lemma appends_initOpts (P : Call -> Prop) : appends P initOpts.
Proof. unfold initOpts. appends_auto. Qed.

Lemma appends_getPlace (result : JsVal) :
  appends asks_default_fields (getPlace result).
Proof. unfold getPlace. appends_auto. Qed.


(** * Further properties *)

(** ** Object literals *)

Lemma obj_get_set_other (fs : list (string * JsVal)) (k k' : string)
    (v : JsVal) :
  String.eqb k' k = false ->
  obj_get (obj_set fs k' v) k = obj_get fs k.
Proof.
  intro Hk. induction fs as [|[k0 v0] fs IH]; simpl.
  - rewrite Hk. reflexivity.
  - destruct (String.eqb k0 k') eqn:E; simpl.
    + apply String.eqb_eq in E. subst k0. rewrite Hk. reflexivity.
    + rewrite IH. reflexivity.
Qed.

Lemma obj_binds_set_same (fs : list (string * JsVal)) (k : string)
    (v : JsVal) :
  obj_binds (obj_set fs k v) k v.
Proof.
  induction fs as [|[k0 v0] fs IH]; simpl.
  - rewrite String.eqb_refl. reflexivity.
  - destruct (String.eqb k0 k) eqn:E; simpl.
    + rewrite String.eqb_refl. reflexivity.
    + rewrite E. exact IH.
Qed.

Lemma obj_binds_set_other (fs : list (string * JsVal)) (k k' : string)
    (v v' : JsVal) :
  String.eqb k' k = false ->
  obj_binds fs k v -> obj_binds (obj_set fs k' v') k v.
Proof.
  intro Hk. induction fs as [|[k0 v0] fs IH]; simpl; intro Hb.
  - destruct Hb.
  - destruct (String.eqb k0 k') eqn:E; simpl.
    + apply String.eqb_eq in E. subst k0. rewrite Hk in Hb |- *. exact Hb.
    + destruct (String.eqb k0 k); [exact Hb|apply IH; exact Hb].
Qed.

Lemma obj_set_bound (fs : list (string * JsVal)) (k : string) (v : JsVal) :
  obj_binds fs k v -> obj_set fs k v = fs.
Proof.
  induction fs as [|[k0 v0] fs IH]; simpl; intro Hb.
  - destruct Hb.
  - destruct (String.eqb k0 k) eqn:E.
    + apply String.eqb_eq in E. subst. reflexivity.
    + rewrite IH by exact Hb. reflexivity.
Qed.

Ltac solve_binds :=
  repeat first [ apply obj_binds_set_same
               | apply obj_binds_set_other; [reflexivity|] ].

Lemma synced_opts_twice (o : JsVal) (os : list (string * JsVal)) :
  synced_opts o (synced_opts o os) = synced_opts o os.
Proof.
  unfold synced_opts.
  destruct (truthy (read o "types")); destruct (truthy (read o "bounds"));
    destruct (truthy (read o "country")); destruct (truthy (read o "fields"));
    repeat rewrite obj_set_bound by solve_binds; reflexivity.
Qed.

Lemma synced_opts_keeps_country (o : JsVal) (os : list (string * JsVal)) :
  truthy (read o "country") = false ->
  obj_get (synced_opts o os) "componentRestrictions"
    = obj_get os "componentRestrictions".
Proof.
  intro Hc. unfold synced_opts. rewrite Hc.
  destruct (truthy (read o "types")); destruct (truthy (read o "bounds"));
    destruct (truthy (read o "fields"));
    repeat rewrite obj_get_set_other by reflexivity; reflexivity.
Qed.

(** ** [initOpts] and [link], in closed form *)

Lemma initOpts_run (st : State) (w : Widget) :
  scope_gPlace st = Some w ->
  truthy (scope_options st) = true ->
  initOpts st =
    Done tt
      (with_gPlace (Some (synced_widget (scope_options st) w))
         (with_locals (is_true (read (scope_options st) "watchEnter"))
                      (synced_opts (scope_options st) (opts st)) st)).
Proof.
  intros Hg Ht.
  destruct st as [o d p a g vv text foc hs we os ls cs].
  simpl in Hg, Ht |- *. subst g.
  unfold initOpts, options_prop, bind, gets, lift, synced_opts, synced_widget.
  simpl. rewrite Ht.
  repeat match goal with
         | |- context [get_prop o ?k] => rewrite (read_get_prop o k Ht)
         | H : is_true (read o ?k) = _ |- context [is_true (read o ?k)] =>
             rewrite H
         | H : truthy (read o ?k) = _ |- context [truthy (read o ?k)] =>
             rewrite H
         | |- context [is_true (read o ?k)] =>
             destruct (is_true (read o k)) eqn:?
         | |- context [truthy (read o ?k)] =>
             destruct (truthy (read o k)) eqn:?
         | _ => progress simpl
         end;
    rewrite ?obj_get_set_same; reflexivity.
Qed.

Lemma link_run (st : State) (fields : JsVal) :
  scope_gPlace st = None ->
  get_prop (scope_options st) "fields" = Ok fields ->
  link st =
    Done tt
      (with_listeners (listeners st ++ all_listeners)
         (with_gPlace
            (Some (if is_undefined fields
                   then setFields defaultPlacesFields new_Autocomplete
                   else new_Autocomplete))
            (with_locals false [] st))).
Proof.
  intros Hg Hf.
  destruct st as [o d p a g vv text foc hs we os ls cs].
  simpl in Hg, Hf |- *. subst g.
  unfold link, options_prop, bind, gets, lift, modify, install. simpl.
  rewrite Hf.
  destruct (is_undefined fields); cbv [modify]; simpl;
    unfold all_listeners; repeat rewrite <- app_assoc; reflexivity.
Qed.

Lemma link_throws (st : State) (e : JsError) :
  scope_gPlace st = None ->
  get_prop (scope_options st) "fields" = Err e ->
  exists st', link st = Threw e st'.
Proof.
  intros Hg Hf.
  destruct st as [o d p a g vv text foc hs we os ls cs].
  simpl in Hg, Hf |- *. subst g.
  unfold link, options_prop, bind, gets, lift, modify, install. simpl.
  rewrite Hf. eexists. reflexivity.
Qed.

Lemma initOpts_needs_widget (st : State) :
  scope_gPlace st = None ->
  truthy (scope_options st) = true ->
  exists st', initOpts st = Threw (TypeError "setTypes") st'.
Proof.
  intros Hg Ht.
  destruct st as [o d p a g vv text foc hs we os ls cs].
  simpl in Hg, Ht |- *. subst g.
  unfold initOpts, options_prop, bind, gets, lift. simpl. rewrite Ht.
  rewrite !(read_get_prop o _ Ht).
  destruct (is_true (read o "watchEnter")); simpl;
    rewrite ?(read_get_prop o _ Ht);
    destruct (truthy (read o "types")); simpl; eexists; reflexivity.
Qed.

Lemma initOpts_skips (st : State) :
  truthy (scope_options st) = false -> initOpts st = Done tt st.
Proof. intro Ht. unfold initOpts, bind, gets. rewrite Ht. reflexivity. Qed.

(** ** The configuration synchronizer, beyond the widget *)

(** X1: when the new Options value has no country, [initOpts] clears the
    widget's country restriction but leaves [opts.componentRestrictions] as
    it was, so the next prediction query still carries the restriction of
    the previous Options value. *)
Theorem withdrawn_country_stays_in_query
    (st : State) (w : Widget) (name : string) :
  scope_gPlace st = Some w ->
  truthy (scope_options st) = true ->
  truthy (read (scope_options st) "country") = false ->
  name <> "" ->
  exists st1 w1 st2,
    initOpts st = Done tt st1 /\
    scope_gPlace st1 = Some w1 /\
    w_componentRestrictions w1 = JNull /\
    getPlace (JObj [("name", JStr name)]) st1 = Done tt st2 /\
    calls st2 =
      calls st ++
      [GetPlacePredictions
         (JObj [("input", JStr name);
                ("offset", JNum (num_of_nat (String.length name)));
                ("componentRestrictions",
                 obj_get (opts st) "componentRestrictions");
                ("types",
                 if truthy (read (scope_options st) "types")
                 then read (scope_options st) "types" else JArr [])])].
Proof.
  intros Hg Ht Hc Hn.
  rewrite (initOpts_run st w Hg Ht).
  do 3 eexists. split; [reflexivity|]. split; [reflexivity|].
  split; [simpl; rewrite Hc; reflexivity|].
  split.
  - apply (getPlace_run _ name (read (scope_options st) "types") Hn).
    simpl. apply read_get_prop. exact Ht.
  - simpl. rewrite (synced_opts_keeps_country _ _ Hc). reflexivity.
Qed.

(** X2: on a fresh scope whose Options carry no [fields], [link] gives the
    widget the default field list, and the first run of [initOpts] replaces
    it by null: the default list is not in force once the directive is
    initialised. *)
Theorem first_initOpts_drops_default_fields (st : State) :
  scope_gPlace st = None ->
  truthy (scope_options st) = true ->
  read (scope_options st) "fields" = JUndefined ->
  exists st1 w1 st2 w2,
    link st = Done tt st1 /\
    scope_gPlace st1 = Some w1 /\
    w_fields w1 = defaultPlacesFields /\
    initOpts st1 = Done tt st2 /\
    scope_gPlace st2 = Some w2 /\
    w_fields w2 = JNull.
Proof.
  intros Hg Ht Hf.
  pose proof (read_get_prop _ "fields" Ht) as Hr. rewrite Hf in Hr.
  rewrite (link_run st JUndefined Hg Hr). simpl is_undefined.
  do 4 eexists. split; [reflexivity|]. split; [reflexivity|].
  split; [reflexivity|]. split.
  - apply initOpts_run; [reflexivity|exact Ht].
  - split; [reflexivity|]. simpl. rewrite Hf. reflexivity.
Qed.

(** X3: on a fresh scope [link] returns exactly when the Options binding is
    neither undefined nor null; it then has installed its seven listeners in
    order, reset the [watchEnter] flag and [opts], constructed a widget that
    holds no place, and made no call and touched neither the field nor the
    Bound Value. *)
Theorem link_returns_iff_options_bound (st : State) :
  scope_gPlace st = None ->
  ((exists st', link st = Done tt st') <->
   (scope_options st <> JUndefined /\ scope_options st <> JNull)) /\
  (forall st',
     link st = Done tt st' ->
     listeners st' = listeners st ++ all_listeners /\
     watchEnter st' = false /\
     opts st' = [] /\
     calls st' = calls st /\
     viewValue st' = viewValue st /\
     element_value st' = element_value st /\
     exists w', scope_gPlace st' = Some w' /\ w_place w' = JUndefined).
Proof.
  intro Hg.
  destruct (get_prop (scope_options st) "fields") as [fields|e] eqn:Hf.
  - rewrite (link_run st fields Hg Hf). split.
    + split; [intros _|intros _; eexists; reflexivity].
      split; intro Ho; rewrite Ho in Hf; discriminate.
    + intros st' H. injection H as <-. simpl.
      repeat (split; [reflexivity|]).
      eexists. split; [reflexivity|]. destruct (is_undefined fields); reflexivity.
  - destruct (link_throws st e Hg Hf) as [s' Hs']. rewrite Hs'. split.
    + split; [intros [st' H]; discriminate|].
      intros [H1 H2]. destruct (scope_options st); simpl in Hf;
        try congruence;
        destruct (String.eqb "fields" "length"); discriminate.
    + intros st' H. discriminate.
Qed.

(** X9: [initOpts] is idempotent: run twice in a row on the same Options
    value it ends in the state one run ends in (the same flag, the same
    [opts], the same widget filters), or throws the same error. *)
Theorem initOpts_twice (st : State) :
  (initOpts ;; initOpts) st = initOpts st.
Proof.
  unfold bind at 1.
  destruct (truthy (scope_options st)) eqn:Ht.
  - destruct (scope_gPlace st) as [w|] eqn:Hg.
    + rewrite (initOpts_run st w Hg Ht).
      rewrite (initOpts_run _ (synced_widget (scope_options st) w))
        by (try reflexivity; exact Ht).
      cbn [scope_options opts with_gPlace with_locals].
      rewrite synced_opts_twice. reflexivity.
    + destruct (initOpts_needs_widget st Hg Ht) as [s' Hs'].
      rewrite Hs'. reflexivity.
  - rewrite (initOpts_skips st Ht). apply initOpts_skips. exact Ht.
Qed.

(** ** What no entry into the directive does *)

Section Keeps.

Context {B : Type} (f : State -> B).
Hypothesis f_calls : forall c s, f (with_calls c s) = f s.

Lemma keeps_ret {A} (a : A) : keeps f (ret a).
Proof. intro st. reflexivity. Qed.

Lemma keeps_lift {A} (r : Res A) : keeps f (lift r).
Proof. intro st. unfold lift. destruct r; reflexivity. Qed.

Lemma keeps_gets {A} (g : State -> A) : keeps f (gets g).
Proof. intro st. reflexivity. Qed.

Lemma keeps_modify (g : State -> State) :
  (forall s, f (g s) = f s) -> keeps f (modify g).
Proof. intros Hg st. simpl. apply Hg. Qed.

Lemma keeps_log (c : Call) : keeps f (log c).
Proof. intro st. simpl. apply f_calls. Qed.

Lemma keeps_bind {A C} (m : M A) (k : A -> M C) :
  keeps f m -> (forall a, keeps f (k a)) -> keeps f (bind m k).
Proof.
  intros Hm Hk st. specialize (Hm st). unfold bind.
  destruct (m st) as [a s'|e s']; simpl in Hm |- *.
  - rewrite (Hk a s'). exact Hm.
  - exact Hm.
Qed.

Lemma keeps_scope_apply (m : M unit) : keeps f m -> keeps f (scope_apply m).
Proof.
  intros Hm st. specialize (Hm st). unfold scope_apply.
  destruct (m st) as [a s'|e s']; simpl in Hm |- *.
  - exact Hm.
  - rewrite f_calls. exact Hm.
Qed.

Lemma keeps_gPlace_call (method : string) (g : Widget -> Widget) :
  (forall w s, f (with_gPlace w s) = f s) -> keeps f (gPlace_call method g).
Proof.
  intros Hw st. unfold gPlace_call.
  destruct (scope_gPlace st); simpl; [apply Hw|reflexivity].
Qed.

Lemma keeps_gPlace_getPlace : keeps f gPlace_getPlace.
Proof.
  intro st. unfold gPlace_getPlace. destruct (scope_gPlace st); reflexivity.
Qed.

End Keeps.

(** One structural step of a [keeps] goal; what remains of a step is that a
    state update leaves the observation alone. *)
Ltac keeps_step :=
  match goal with
  | |- keeps _ (bind _ _) => apply keeps_bind; [|intro]
  | |- keeps _ (ret _) => apply keeps_ret
  | |- keeps _ (lift _) => apply keeps_lift
  | |- keeps _ (gets _) => apply keeps_gets
  | |- keeps _ (modify _) => apply keeps_modify; intro; reflexivity
  | |- keeps _ (log _) => apply keeps_log; intros; reflexivity
  | |- keeps _ (gPlace_call _ _) =>
      apply keeps_gPlace_call; intros; reflexivity
  | |- keeps _ gPlace_getPlace => apply keeps_gPlace_getPlace
  | |- keeps _ (scope_apply _) =>
      apply keeps_scope_apply; [intros; reflexivity|]
  | |- keeps _ (if ?b then _ else _) => destruct b
  | |- keeps _ (match ?x with _ => _ end) => destruct x
  end.

Ltac keeps_auto :=
  repeat first
    [ keeps_step
    | progress cbv zeta
    | progress unfold setViewValue, element_val, element_val_set,
        element_on_focusout, element_unbind_focusout, options_prop,
        set_watchEnter, opts_set, opts_get, install, focusout_handler ].

Ltac calls_auto :=
  repeat first [ appends_step | progress cbv zeta
               | progress unfold setViewValue, element_val, element_val_set,
                   element_on_focusout, element_unbind_focusout, options_prop,
                   set_watchEnter, opts_set, opts_get, install, focusout_handler ].

Lemma keeps_run_handlers {B} (f : State -> B) (hs : list JsVal) :
  (forall text focused handlers s,
     f (with_element text focused handlers s) = f s) ->
  keeps f (run_handlers hs).
Proof.
  intro He. induction hs as [|h rest IH]; simpl.
  - apply keeps_ret.
  - apply keeps_bind; [|intro; exact IH].
    unfold focusout_handler, element_val_set, element_unbind_focusout.
    apply keeps_bind; [|intro]; apply keeps_modify; intro; apply He.
Qed.

(** X10: no entry into the directive ever assigns to the bindings the page
    owns: [scope.options], [scope.placeId] and [scope.initialAddress] are the
    same after every handler, whether it returns or throws. *)
Theorem bindings_are_only_read (ev : Event) (st : State) :
  bindings (final_state (handle ev st)) = bindings st.
Proof.
  revert st. change (keeps bindings (handle ev)).
  destruct ev; simpl handle.
  - unfold link. keeps_auto.
  - unfold on_key. keeps_auto.
  - unfold on_place_changed, getPlace, element_blur, dispatch_focusout.
    keeps_auto. apply keeps_run_handlers. reflexivity.
  - unfold listentoresult, getPlaceDetails. keeps_auto.
  - unfold detailsresult. keeps_auto.
  - unfold geocode_callback. keeps_auto.
  - unfold initOpts. keeps_auto.
  - unfold initPlace, getPlaceDetails. keeps_auto.
  - unfold initInitialAddress. keeps_auto.
  - unfold render. keeps_auto.
  - unfold browser_focusout, dispatch_focusout. keeps_auto.
    apply keeps_run_handlers. reflexivity.
Qed.

(** X11: each entry makes only the calls of its own step: a prediction query
    comes only from [place_changed]; a details request only from a
    predictions reply or a PlaceId change; a geocode request only from an
    InitialAddress change; the no-results event only from a predictions
    reply; a console warning only from a geocode reply or an InitialAddress
    change.  In particular no reply to a details or geocode request, no key,
    no render, no focus loss and no Options change starts a lookup. *)
Theorem calls_follow_the_entry (ev : Event) (st : State) :
  exists new,
    calls (final_state (handle ev st)) = calls st ++ new /\
    Forall (may_call ev) new.
Proof.
  revert st. change (appends (may_call ev) (handle ev)).
  destruct ev; simpl handle.
  - unfold link. calls_auto.
  - unfold on_key. calls_auto.
  - unfold on_place_changed, getPlace, element_blur, dispatch_focusout.
    calls_auto. apply appends_run_handlers.
  - unfold listentoresult, getPlaceDetails. calls_auto.
  - unfold detailsresult. calls_auto.
  - unfold geocode_callback. calls_auto.
  - unfold initOpts. calls_auto.
  - unfold initPlace, getPlaceDetails. calls_auto.
  - unfold initInitialAddress. calls_auto.
  - unfold render. calls_auto.
  - unfold browser_focusout, dispatch_focusout. calls_auto.
    apply appends_run_handlers.
Qed.

(** ** The one-shot focusout handlers *)

Lemma settled_text_last (hs : list JsVal) (s text : string) :
  settled_text (hs ++ [JStr s]) text = s.
Proof. unfold settled_text. rewrite fold_left_app. reflexivity. Qed.

Lemma browser_focusout_run (st : State) :
  browser_focusout st =
    Done tt (with_element (settled_text (focusout st) (element_value st))
                          false [] st).
Proof.
  unfold browser_focusout, dispatch_focusout, bind, gets, modify.
  simpl focusout.
  destruct (focusout st) as [|h rest] eqn:E.
  - simpl. destruct st; simpl in *. subst. reflexivity.
  - rewrite run_handlers_run by discriminate. reflexivity.
Qed.

(** X5: however many focusout handlers resolutions have left pending, one
    focus loss runs them all and removes them all: the field then shows the
    address of the latest resolution, the Bound Value and Details are
    untouched, and a second focus loss changes nothing. *)
Theorem focusout_handlers_fire_once
    (st : State) (earlier : list JsVal) (latest : string) :
  focusout st = earlier ++ [JStr latest] ->
  exists st1,
    browser_focusout st = Done tt st1 /\
    element_value st1 = latest /\
    focusout st1 = [] /\
    viewValue st1 = viewValue st /\
    scope_details st1 = scope_details st /\
    calls st1 = calls st /\
    browser_focusout st1 = Done tt st1.
Proof.
  intro Hf. rewrite browser_focusout_run. rewrite Hf, settled_text_last.
  eexists. split; [reflexivity|]. simpl. repeat split.
Qed.

Lemma field_edited_run (st : State) (text : string) (committed : JsVal) :
  field_edited text committed st =
    Done tt (with_viewValue committed
               (with_element text (element_focused st) (focusout st) st)).
Proof. reflexivity. Qed.

(** X12: after a details reply with status OK, whatever edit comes next
    (whatever text it leaves in the field and whatever value ngModel commits
    for it), the next focus loss puts the resolved address back in the
    field; the Bound Value stays the committed value, so the two differ
    unless that value is the address itself. *)
Theorem resolved_address_returns_on_focus_loss
    (st : State) (detailsResult : JsVal) (fa typed : string)
    (committed : JsVal) :
  get_prop detailsResult "formatted_address" = Ok (JStr fa) ->
  exists st3,
    run_all [ detailsresult detailsResult GeocoderStatus_OK;
              field_edited typed committed; browser_focusout ] st
      = Done tt st3 /\
    element_value st3 = fa /\
    viewValue st3 = committed /\
    scope_details st3 = detailsResult /\
    focusout st3 = [] /\
    (in_sync st3 <-> committed = JStr fa).
Proof.
  intro Hfa.
  destruct (detailsresult_ok st detailsResult (JStr fa) Hfa)
    as (s1 & Hrun & _ & _ & Hd & Hf & _).
  cbn [run_all].
  unfold bind at 1. rewrite Hrun. cbv beta iota.
  unfold bind at 1. rewrite field_edited_run. cbv beta iota.
  unfold bind at 1. rewrite browser_focusout_run. cbv beta iota.
  cbn [focusout with_viewValue with_element]. rewrite Hf, settled_text_last.
  eexists. split; [reflexivity|].
  unfold in_sync. simpl. repeat split; try assumption; congruence.
Qed.

(** ** Replies that carry no result *)

(** X7: a geocode reply with status OK whose first result is missing or
    falsy (the empty list among others) writes the console warning
    'No results found' and changes nothing else; when the result list itself
    is null or undefined, reading its first element throws a TypeError out
    of the callback, outside [$apply], and nothing is changed or logged. *)
Theorem geocode_reply_without_first_result (st : State) (results : JsVal) :
  (forall r0,
     get_index results 0 = Ok r0 -> truthy r0 = false ->
     geocode_callback results GeocoderStatus_OK st =
       Done tt (with_calls (calls st ++ [ConsoleWarn "No results found"]) st)) /\
  (results = JNull \/ results = JUndefined ->
   geocode_callback results GeocoderStatus_OK st = Threw (TypeError "0") st).
Proof.
  unfold geocode_callback. rewrite String.eqb_refl. split.
  - intros r0 Hi Ht. unfold bind, lift. rewrite Hi, Ht. reflexivity.
  - intros [H|H]; subst; reflexivity.
Qed.

(** X8: a details reply with status OK whose result cannot be read (null or
    undefined) throws inside [$apply]: the error goes to the exception
    handler, and neither the field, nor the Bound Value, nor Details, nor
    the focusout handlers change. *)
Theorem details_reply_without_result_is_caught
    (st : State) (detailsResult : JsVal) (e : JsError) :
  get_prop detailsResult "formatted_address" = Err e ->
  detailsresult detailsResult GeocoderStatus_OK st =
    Done tt (with_calls (calls st ++ [ExceptionHandler e]) st).
Proof.
  intro He. unfold detailsresult. rewrite String.eqb_refl.
  unfold scope_apply, bind, lift. rewrite He. reflexivity.
Qed.

(** ** The initial value *)

(** X6: with no PlaceId and an InitialAddress whose coordinates are both
    truthy, the address watch sends one geocode request for the bound
    address; an OK reply then writes the first result's formatted address to
    the field and to the Bound Value, stores that first result as Details
    and leaves one focusout handler for it, whatever further results the
    reply carries. *)
Theorem initial_address_is_resolved
    (st : State) (r0 : JsVal) (rest : list JsVal) (fa : string) :
  truthy (scope_placeId st) = false ->
  truthy (scope_initialAddress st) = true ->
  truthy (read (scope_initialAddress st) "lat") = true ->
  truthy (read (scope_initialAddress st) "lng") = true ->
  truthy r0 = true ->
  get_prop r0 "formatted_address" = Ok (JStr fa) ->
  exists st1 st2,
    initInitialAddress st = Done tt st1 /\
    calls st1 =
      calls st ++ [Geocode (JObj [("location", scope_initialAddress st)])] /\
    geocode_callback (JArr (r0 :: rest)) GeocoderStatus_OK st1 = Done tt st2 /\
    element_value st2 = fa /\
    viewValue st2 = JStr fa /\
    scope_details st2 = r0 /\
    focusout st2 = focusout st ++ [JStr fa] /\
    calls st2 = calls st1.
Proof.
  intros Hp Ha Hlat Hlng Ht Hfa.
  rewrite (initInitialAddress_geocodes st Hp Ha Hlat Hlng).
  match goal with |- context [Done tt ?s] =>
    destruct (geocode_callback_ok s (JArr (r0 :: rest)) r0 (JStr fa)
                eq_refl Ht Hfa)
      as (st2 & Hrun & Hv & He & Hd & Hf & Hc)
  end.
  do 2 eexists. split; [reflexivity|]. split; [reflexivity|].
  split; [exact Hrun|]. simpl in He, Hf. repeat split; assumption.
Qed.

(** X13: with no PlaceId, an InitialAddress that is missing, or lacks a
    latitude or a longitude (or has a falsy one), is passed over in silence:
    neither watch makes a call, writes a warning or changes anything. *)
Theorem unusable_initial_address_is_ignored (st : State) :
  truthy (scope_placeId st) = false ->
  truthy (scope_initialAddress st) = false \/
  truthy (read (scope_initialAddress st) "lat") = false \/
  truthy (read (scope_initialAddress st) "lng") = false ->
  initPlace st = Done tt st /\ initInitialAddress st = Done tt st.
Proof.
  intros Hp Hbad. split.
  - unfold initPlace, bind, gets. rewrite Hp. reflexivity.
  - unfold initInitialAddress, bind, gets, lift. rewrite Hp.
    destruct (truthy (scope_initialAddress st)) eqn:Ha; [|reflexivity].
    rewrite (read_get_prop _ "lat" Ha).
    destruct (truthy (read (scope_initialAddress st) "lat")) eqn:Hlat;
      [|reflexivity].
    rewrite (read_get_prop _ "lng" Ha).
    destruct Hbad as [H|[H|H]]; try discriminate.
    rewrite H. reflexivity.
Qed.

(** ** [place_changed] without the key handler *)

(** X14: when [place_changed] arrives on its own (as the submit listener
    triggers it) with the [watchEnter] flag on, no address components, and a
    Bound Value that is undefined or null, reading its length throws a
    TypeError: no query is made, the input keeps its focus and nothing is
    changed. *)
Theorem place_changed_without_bound_value_throws (st : State) (w : Widget) :
  scope_gPlace st = Some w ->
  address_components_present (w_place w) = false ->
  watchEnter st = true ->
  viewValue st = JUndefined \/ viewValue st = JNull ->
  on_place_changed st = Threw (TypeError "length") st.
Proof.
  intros Hg Hac Hwe Hv.
  rewrite (on_place_changed_run st w Hg), Hac, Hwe.
  unfold bind, getPlace, bind, lift. js_reads.
  destruct Hv as [H|H]; rewrite H; reflexivity.
Qed.

(** X15: when [place_changed] arrives with the [watchEnter] flag on, no
    address components, Options bound and a string as Bound Value, the
    prediction query is made for the Bound Value (not for the field text)
    and only if it is not empty; either way the input loses its focus, and
    the Bound Value and Details stay as they are. *)
Theorem place_changed_queries_bound_value
    (st : State) (w : Widget) (name : string) :
  scope_gPlace st = Some w ->
  address_components_present (w_place w) = false ->
  watchEnter st = true ->
  truthy (scope_options st) = true ->
  viewValue st = JStr name ->
  exists st',
    on_place_changed st = Done tt st' /\
    calls st' =
      calls st ++
      (if String.eqb name "" then []
       else [GetPlacePredictions
               (JObj [("input", JStr name);
                      ("offset", JNum (num_of_nat (String.length name)));
                      ("componentRestrictions",
                       obj_get (opts st) "componentRestrictions");
                      ("types",
                       if truthy (read (scope_options st) "types")
                       then read (scope_options st) "types" else JArr [])])]) /\
    element_focused st' = false /\
    viewValue st' = JStr name /\
    scope_details st' = scope_details st.
Proof.
  intros Hg Hac Hwe Ho Hv.
  rewrite (on_place_changed_run st w Hg), Hac, Hwe, Hv. unfold bind.
  destruct (String.eqb name "") eqn:E.
  - apply String.eqb_eq in E. subst name. rewrite getPlace_empty.
    destruct (element_blur_frame st) as (text & Hb & _). rewrite Hb.
    eexists. split; [reflexivity|]. simpl. rewrite app_nil_r.
    repeat split. exact Hv.
  - apply String.eqb_neq in E.
    rewrite (getPlace_run st name (read (scope_options st) "types") E)
      by (apply read_get_prop; exact Ho).
    match goal with |- context [element_blur ?s0] =>
      destruct (element_blur_frame s0) as (text & Hb & _)
    end.
    rewrite Hb. eexists. split; [reflexivity|]. simpl.
    repeat split. exact Hv.
Qed.

(** ** The Bound Value and the field *)

Lemma in_sync_kept {A} (m : M A) (st : State) :
  keeps (fun s => (viewValue s, element_value s)) m ->
  in_sync st -> in_sync (final_state (m st)).
Proof.
  intros Hk Hs. specialize (Hk st). injection Hk as Hv He.
  unfold in_sync in *. rewrite Hv, He. exact Hs.
Qed.

Lemma keeps_getPlace {B} (f : State -> B) (result : JsVal) :
  (forall c s, f (with_calls c s) = f s) ->
  keeps f (getPlace result).
Proof. intro Hc. unfold getPlace. keeps_auto; apply keeps_log; exact Hc. Qed.

Lemma reply_written_in_sync (st st' : State) (fa : JsVal) :
  (exists s, fa = JStr s) ->
  viewValue st' = fa ->
  element_value st' = val_text fa (element_value st) ->
  in_sync st'.
Proof.
  intros [s ->] Hv He. unfold in_sync. rewrite Hv, He. reflexivity.
Qed.

(** X4: once the Bound Value is the text the field shows, it stays so
    through every entry into the directive, except where a focusout handler
    is pending when the focus is lost or [place_changed] arrives, and where
    an OK reply carries an address that is not a string. *)
Theorem bound_value_follows_field (ev : Event) (st : State) :
  in_sync st ->
  sync_safe ev st ->
  in_sync (final_state (handle ev st)).
Proof.
  intros Hs Hsafe. destruct ev; simpl handle; simpl in Hsafe.
  - apply in_sync_kept; [|exact Hs]. unfold link. keeps_auto.
  - unfold on_key. destruct (Z.eqb which 13); [reflexivity|exact Hs].
  - destruct (scope_gPlace st) as [w|] eqn:Hg.
    + rewrite (on_place_changed_run st w Hg).
      destruct (address_components_present (w_place w)); [reflexivity|].
      destruct (watchEnter st); [|exact Hs].
      pose proof (keeps_getPlace
                    (fun s => (viewValue s, element_value s, focusout s))
                    (JObj [("name", viewValue st)])
                    (fun _ _ => eq_refl) st) as Hk.
      unfold bind.
      destruct (getPlace (JObj [("name", viewValue st)]) st) as [a s1|e s1];
        simpl in Hk; injection Hk as Hv He Hf.
      * destruct (element_blur_frame s1) as (text & Hb & Ht).
        rewrite Hb. rewrite Ht by congruence.
        unfold in_sync in *. simpl. congruence.
      * unfold in_sync in *. simpl. congruence.
    + unfold on_place_changed, gPlace_getPlace, bind. rewrite Hg. exact Hs.
  - apply in_sync_kept; [|exact Hs].
    unfold listentoresult, getPlaceDetails. keeps_auto.
  - unfold detailsresult.
    destruct (String.eqb status GeocoderStatus_OK) eqn:E; [|exact Hs].
    apply String.eqb_eq in E. specialize (Hsafe E).
    destruct (get_prop detailsResult "formatted_address") as [fa|e] eqn:Hfa.
    + apply (reply_written_in_sync st _ fa (Hsafe fa Hfa));
        unfold scope_apply, bind, lift; rewrite ?Hfa; reflexivity.
    + unfold scope_apply, bind, lift. rewrite ?Hfa. exact Hs.
  - unfold geocode_callback.
    destruct (String.eqb status GeocoderStatus_OK) eqn:E; [|exact Hs].
    apply String.eqb_eq in E. specialize (Hsafe E).
    unfold bind at 1. unfold lift at 1.
    destruct (get_index results 0) as [r0|e] eqn:Hi; [|exact Hs].
    specialize (Hsafe r0 eq_refl).
    destruct (truthy r0); [|exact Hs].
    destruct (get_prop r0 "formatted_address") as [fa|e] eqn:Hfa.
    + apply (reply_written_in_sync st _ fa (Hsafe fa Hfa));
        unfold scope_apply, bind, lift; rewrite ?Hfa; reflexivity.
    + unfold scope_apply, bind, lift. rewrite ?Hfa. exact Hs.
  - apply in_sync_kept; [|exact Hs].
    apply keeps_scope_apply; [reflexivity|]. unfold initOpts. keeps_auto.
  - apply in_sync_kept; [|exact Hs].
    apply keeps_scope_apply; [reflexivity|].
    unfold initPlace, getPlaceDetails. keeps_auto.
  - apply in_sync_kept; [|exact Hs].
    apply keeps_scope_apply; [reflexivity|].
    unfold initInitialAddress. keeps_auto.
  - unfold render, bind, gets, element_val_set, modify, in_sync in *.
    simpl. rewrite Hs. reflexivity.
  - rewrite browser_focusout_run, Hsafe. exact Hs.
Qed.

(** ** The field list of a details request *)

Lemma initPlace_run (st : State) :
  truthy (scope_placeId st) = true ->
  initPlace st =
    Done tt
      (with_calls
         (calls st ++
          [GetDetails (JObj [("fields", defaultPlacesFields);
                             ("placeId", scope_placeId st)])]) st).
Proof.
  intro Hp. unfold initPlace, getPlaceDetails, bind, gets. rewrite Hp.
  simpl. rewrite Hp. reflexivity.
Qed.

(** C10: a field list supplied in Options is applied to the widget by
    [initOpts] and to nothing else.  With it in force, the details request
    of a PlaceId initialisation and the details request made for the first
    prediction of an Enter lookup are both issued and both ask for exactly
    the fixed default field list; the request [getPlaceDetails] builds is the
    same whatever Options holds; and whatever enters the directive, in
    whatever state, every details request it appends asks for the default
    list. *)
Theorem details_requests_ask_default_fields (st : State) (w : Widget) :
  scope_gPlace st = Some w ->
  truthy (scope_options st) = true ->
  truthy (read (scope_options st) "fields") = true ->
  (exists st1 w1,
     initOpts st = Done tt st1 /\
     scope_gPlace st1 = Some w1 /\
     w_fields w1 = read (scope_options st) "fields" /\
     calls st1 = calls st /\
     (truthy (scope_placeId st) = true ->
      initPlace st1 =
        Done tt
          (with_calls
             (calls st ++
              [GetDetails (JObj [("fields", defaultPlacesFields);
                                 ("placeId", scope_placeId st)])]) st1)) /\
     (forall first rest reference status,
        get_prop first "reference" = Ok reference ->
        listentoresult (JArr (first :: rest)) status st1 =
          Done tt
            (with_calls
               (calls st ++
                [GetDetails
                   (JObj (if truthy (scope_placeId st)
                          then [("fields", defaultPlacesFields);
                                ("placeId", scope_placeId st);
                                ("reference", reference)]
                          else [("fields", defaultPlacesFields);
                                ("reference", reference)]))]) st1))) /\
  (forall list options,
     calls (final_state
              (getPlaceDetails list
                 (with_bindings options (scope_placeId st)
                                (scope_initialAddress st) st)))
     = calls (final_state (getPlaceDetails list st))) /\
  (forall ev s, exists new,
     calls (final_state (handle ev s)) = calls s ++ new /\
     Forall asks_default_fields new).
Proof.
  intros Hg Ho Hf. split; [|split].
  - rewrite (initOpts_run st w Hg Ho).
    do 2 eexists. split; [reflexivity|]. split; [reflexivity|].
    split; [simpl; rewrite Hf; reflexivity|]. split; [reflexivity|]. split.
    + intro Hp. rewrite initPlace_run by exact Hp. reflexivity.
    + intros first rest reference status Hr.
      rewrite listentoresult_nonempty.
      rewrite (getPlaceDetails_first _ _ _ reference Hr). reflexivity.
  - intros list options.
    unfold getPlaceDetails, bind, gets, lift.
    cbn [scope_placeId with_bindings].
    destruct (truthy (scope_placeId st)); destruct (truthy list);
      try (destruct (get_index list 0) as [first|e];
           [destruct (get_prop first "reference") as [reference|e]|]);
      reflexivity.
  - intros ev s. revert s. change (appends asks_default_fields (handle ev)).
    destruct ev; simpl handle.
    + unfold link. appends_auto.
    + unfold on_key. appends_auto.
    + unfold on_place_changed. appends_auto.
      * apply appends_getPlace.
      * apply appends_element_blur.
    + unfold listentoresult. appends_auto. apply appends_getPlaceDetails.
    + unfold detailsresult. appends_auto.
    + unfold geocode_callback. appends_auto.
    + apply appends_scope_apply; [intro; exact I|]. apply appends_initOpts.
    + apply appends_scope_apply; [intro; exact I|].
      unfold initPlace. appends_auto. apply appends_getPlaceDetails.
    + apply appends_scope_apply; [intro; exact I|].
      unfold initInitialAddress. appends_auto.
    + unfold render. appends_auto.
    + unfold browser_focusout, dispatch_focusout. appends_auto.
      apply appends_run_handlers.
Qed.

End Properties.

(** * The theorems at concrete worlds *)

Lemma place_changed_stores_selection_witness :
  exists st',
    on_place_changed (rt := sample_runtime) eiffel_selected = Done tt st' /\
    scope_details st' = eiffel_place /\
    viewValue st' = JStr (element_value st') /\
    element_value st' = element_value eiffel_selected /\
    calls st' = calls eiffel_selected /\
    (forall fa, viewValue st' = JStr fa <-> element_value eiffel_selected = fa).
Proof.
  apply (place_changed_stores_selection (rt := sample_runtime) eiffel_selected
           (widget_with_place eiffel_place)
           (JArr [JObj [("long_name", JStr "Paris"); ("short_name", JStr "Paris")]]));
    vm_compute; reflexivity.
Defined.

(** C1 as stated fails where the suggestion's description differs from the
    place's formatted address: the Bound Value is the description. *)
Lemma selection_bound_value_is_not_formatted_address :
  scope_gPlace eiffel_selected = Some (widget_with_place eiffel_place) /\
  truthy eiffel_place = true /\
  (exists ac, get_prop eiffel_place "address_components" = Ok ac /\ truthy ac = true) /\
  get_prop eiffel_place "formatted_address"
    = Ok (JStr "Av. Gustave Eiffel, 75007 Paris, France") /\
  exists st',
    on_place_changed (rt := sample_runtime) eiffel_selected = Done tt st' /\
    viewValue st' = JStr "Eiffel Tower, Avenue Gustave Eiffel, Paris, France" /\
    viewValue st' <> JStr "Av. Gustave Eiffel, 75007 Paris, France".
Proof.
  do 2 (split; [vm_compute; reflexivity|]).
  split.
  - exists (JArr [JObj [("long_name", JStr "Paris"); ("short_name", JStr "Paris")]]).
    split; vm_compute; reflexivity.
  - split; [vm_compute; reflexivity|].
    exists (final_state (on_place_changed (rt := sample_runtime) eiffel_selected)).
    do 2 (split; [vm_compute; reflexivity|]).
    vm_compute. discriminate.
Qed.

Lemma typed_into_par :
  typed_into watching_options JUndefined "par" =
    {| scope_options := watching_options; scope_details := JUndefined;
       scope_placeId := JUndefined; scope_initialAddress := JUndefined;
       scope_gPlace := Some (widget_with_place (typed_name "par"));
       viewValue := JStr "par"; element_value := "par";
       element_focused := true; focusout := []; watchEnter := true;
       opts := []; listeners := all_listeners; calls := [] |}.
Proof. vm_compute. reflexivity. Qed.

Lemma enter_resolves_first_prediction_witness :
  exists st1,
    press_enter (rt := sample_runtime)
      (typed_into watching_options JUndefined "par") = Done tt st1 /\
    calls st1 =
      [GetPlacePredictions
         (JObj [("input", JStr "par"); ("offset", JNum (num_of_nat 3));
                ("componentRestrictions", JUndefined); ("types", JArr [])])] /\
    viewValue st1 = JStr "par" /\
    element_focused st1 = false.
Proof.
  destruct (enter_resolves_first_prediction (rt := sample_runtime)
              (typed_into watching_options JUndefined "par")
              (widget_with_place (typed_name "par")))
    as ((st1 & Hrun & Hcalls & Hview & _ & Hfocus) & _);
    [vm_compute; reflexivity | vm_compute; reflexivity | vm_compute; reflexivity
    | vm_compute; reflexivity | vm_compute; discriminate |].
  exists st1. repeat split; assumption.
Defined.

(** C2 as stated fails twice.  On an empty field an Enter press with
    [watchEnter] on issues no prediction query; and with a PlaceId bound the
    details request made for the first prediction carries the PlaceId
    besides the reference. *)
Lemma enter_query_and_request_differ :
  (watchEnter (typed_into watching_options JUndefined "") = true /\
   scope_gPlace (typed_into watching_options JUndefined "")
     = Some (widget_with_place (typed_name "")) /\
   address_components_present (typed_name "") = false /\
   exists st1,
     press_enter (rt := sample_runtime)
       (typed_into watching_options JUndefined "") = Done tt st1 /\
     calls st1 = []) /\
  (scope_placeId (typed_into watching_options (JStr "abc123") "par")
     = JStr "abc123" /\
   exists st1 st2 earlier,
     press_enter (rt := sample_runtime)
       (typed_into watching_options (JStr "abc123") "par") = Done tt st1 /\
     listentoresult (JArr [paris_prediction]) "OK" st1 = Done tt st2 /\
     calls st2 =
       earlier ++
       [GetDetails
          (JObj [("fields", defaultPlacesFields);
                 ("placeId", JStr "abc123");
                 ("reference", JStr "ref-paris")])]).
Proof.
  split.
  - split; [vm_compute; reflexivity|]. split; [vm_compute; reflexivity|].
    split; [vm_compute; reflexivity|].
    exists (final_state
              (press_enter (rt := sample_runtime)
                 (typed_into watching_options JUndefined ""))).
    split; vm_compute; reflexivity.
  - split; [vm_compute; reflexivity|].
    exists (final_state
              (press_enter (rt := sample_runtime)
                 (typed_into watching_options (JStr "abc123") "par"))).
    exists (final_state
              (listentoresult (JArr [paris_prediction]) "OK"
                 (final_state
                    (press_enter (rt := sample_runtime)
                       (typed_into watching_options (JStr "abc123") "par"))))).
    exists [GetDetails (JObj [("fields", defaultPlacesFields);
                              ("placeId", JStr "abc123")]);
            ConsoleWarn "Using PlaceId to configure the Autocomplete component.";
            GetPlacePredictions
              (JObj [("input", JStr "par"); ("offset", JNum (num_of_nat 3));
                     ("componentRestrictions", JUndefined);
                     ("types", JArr [])])].
    split; [|split]; vm_compute; reflexivity.
Qed.

Lemma enter_without_predictions_witness :
  exists st1 st2 query,
    press_enter (rt := sample_runtime)
      (typed_into watching_options JUndefined "par") = Done tt st1 /\
    calls st1 = [GetPlacePredictions query] /\
    listentoresult JNull "ZERO_RESULTS" st1 = Done tt st2 /\
    scope_details st2 = JNull /\
    calls st2 = calls st1 ++ [Emit "ngPlacesAutocomplete:no-results"] /\
    element_value st2 = "par" /\
    viewValue st2 = JStr "par".
Proof.
  destruct (enter_without_predictions (rt := sample_runtime)
              (typed_into watching_options JUndefined "par")
              (widget_with_place (typed_name "par")) JNull "ZERO_RESULTS")
    as (_ & H);
    [vm_compute; reflexivity | vm_compute; reflexivity | vm_compute; reflexivity
    | vm_compute; reflexivity | vm_compute; discriminate | left; reflexivity |].
  apply H. vm_compute. reflexivity.
Defined.

(** C3 as stated fails on a second search.  The first search left a one-shot
    focusout handler for "Paris, France"; the blur of the second Enter press
    runs it, so that when the query for "zzzz" comes back empty the field
    shows "Paris, France". *)
Lemma enter_without_predictions_rewrites_field :
  scope_gPlace second_search = Some (widget_with_place (typed_name "zzzz")) /\
  address_components_present (typed_name "zzzz") = false /\
  watchEnter second_search = true /\
  truthy (scope_options second_search) = true /\
  element_value second_search = "zzzz" /\
  focusout second_search = [JStr "Paris, France"] /\
  exists st1 st2,
    press_enter (rt := sample_runtime) second_search = Done tt st1 /\
    listentoresult JNull "ZERO_RESULTS" st1 = Done tt st2 /\
    scope_details st2 = JNull /\
    element_value st2 = "Paris, France" /\
    element_value st2 <> element_value second_search.
Proof.
  do 6 (split; [vm_compute; reflexivity|]).
  exists (final_state (press_enter (rt := sample_runtime) second_search)).
  exists (final_state
            (listentoresult JNull "ZERO_RESULTS"
               (final_state (press_enter (rt := sample_runtime) second_search)))).
  do 4 (split; [vm_compute; reflexivity|]).
  vm_compute. discriminate.
Qed.

Lemma initOpts_applies_or_clears_witness :
  exists st' w',
    initOpts (final_state (link (attached filter_options JUndefined JUndefined)))
      = Done tt st' /\
    scope_gPlace st' = Some w' /\
    w_types w' = JStr "geocode" /\
    w_bounds w' = JNull /\
    w_componentRestrictions w' = JObj [("country", JStr "ca")] /\
    w_fields w' = JNull /\
    watchEnter st' = false.
Proof.
  destruct (initOpts_applies_or_clears
              (final_state (link (attached filter_options JUndefined JUndefined)))
              (setFields defaultPlacesFields new_Autocomplete))
    as (_ & H); [vm_compute; reflexivity|].
  destruct H as (st' & w' & Hrun & Hg & Ht & Hb & Hc & Hf & Hw & _);
    [vm_compute; reflexivity|].
  exists st', w'. repeat split; assumption.
Defined.

(** C4 as stated fails when the Options value is undefined: [initOpts]
    returns at once, and the type filter and the country restriction set
    from the previous Options value stay on the widget.  A sub-option that is
    present but falsy is cleared, not applied. *)
Lemma withdrawn_options_leave_filters :
  (scope_options options_withdrawn = JUndefined /\
   exists w,
     scope_gPlace options_withdrawn = Some w /\
     initOpts options_withdrawn = Done tt options_withdrawn /\
     w_types w = JStr "geocode" /\
     w_componentRestrictions w = JObj [("country", JStr "ca")]) /\
  (exists st' w',
     initOpts (with_bindings (JObj [("country", JStr "")]) JUndefined JUndefined
                 options_withdrawn) = Done tt st' /\
     scope_gPlace st' = Some w' /\
     w_componentRestrictions w' = JNull).
Proof.
  split.
  - split; [vm_compute; reflexivity|].
    exists {| w_types := JStr "geocode"; w_bounds := JNull;
              w_componentRestrictions := JObj [("country", JStr "ca")];
              w_fields := JNull; w_place := JUndefined |}.
    do 3 (split; [vm_compute; reflexivity|]). vm_compute. reflexivity.
  - exists (final_state
              (initOpts
                 (with_bindings (JObj [("country", JStr "")]) JUndefined
                    JUndefined options_withdrawn))).
    exists {| w_types := JArr []; w_bounds := JNull;
              w_componentRestrictions := JNull;
              w_fields := JNull; w_place := JUndefined |}.
    do 2 (split; [vm_compute; reflexivity|]). vm_compute. reflexivity.
Qed.

Lemma placeId_takes_precedence_witness :
  exists st',
    (scope_apply initPlace ;; scope_apply initInitialAddress) both_bound
      = Done tt st' /\
    calls st' =
      [GetDetails (JObj [("fields", defaultPlacesFields);
                         ("placeId", JStr "abc123")]);
       ConsoleWarn "Using PlaceId to configure the Autocomplete component."].
Proof.
  destruct (placeId_takes_precedence both_bound) as (_ & _ & st' & Hrun & Hc & _);
    [vm_compute; reflexivity|].
  exists st'. split; assumption.
Defined.

Lemma failed_lookup_changes_nothing_witness :
  detailsresult (rt := sample_runtime) JNull "NOT_FOUND" second_search
    = Done tt second_search /\
  exists st',
    geocode_callback (rt := sample_runtime) JNull "ZERO_RESULTS" second_search
      = Done tt st' /\
    element_value st' = "zzzz" /\
    viewValue st' = JStr "zzzz" /\
    scope_details st' = paris_details.
Proof.
  split.
  - apply (failed_lookup_changes_nothing (rt := sample_runtime)
             second_search JNull "NOT_FOUND"). discriminate.
  - destruct (failed_lookup_changes_nothing (rt := sample_runtime)
                second_search JNull "ZERO_RESULTS")
      as (_ & st' & Hrun & _ & He & Hv & Hd & _); [discriminate|].
    exists st'. repeat split; assumption.
Defined.

Lemma plain_enter_only_commits_text_witness :
  exists st',
    press_enter (rt := sample_runtime) eiffel_selected = Done tt st' /\
    calls st' = [] /\
    viewValue st' = JStr "Eiffel Tower, Avenue Gustave Eiffel, Paris, France".
Proof.
  destruct (plain_enter_only_commits_text (rt := sample_runtime)
              eiffel_selected (widget_with_place eiffel_place))
    as ((st' & Hrun & Hc & Hv & _) & _);
    [vm_compute; reflexivity | vm_compute; reflexivity |].
  exists st'. repeat split; assumption.
Defined.

Lemma options_binding_is_required_witness :
  exists st' w,
    link (attached JUndefined JUndefined JUndefined)
      = Threw (TypeError "fields") st' /\
    scope_gPlace st' = Some w /\
    w_fields w = JUndefined /\
    listeners st' = [OnKey].
Proof.
  destruct (options_binding_is_required (rt := sample_runtime)
              (attached JUndefined JUndefined JUndefined))
    as (H & _); [vm_compute; reflexivity|].
  destruct H as (st' & w & Hrun & Hg & Hf & Hl & _); [vm_compute; reflexivity|].
  exists st', w. repeat split; assumption.
Defined.

(** The worlds of the second search and of the withdrawn Options, written
    out. *)
Lemma second_search_world :
  second_search =
    {| scope_options := watching_options; scope_details := paris_details;
       scope_placeId := JUndefined; scope_initialAddress := JUndefined;
       scope_gPlace := Some (widget_with_place (typed_name "zzzz"));
       viewValue := JStr "zzzz"; element_value := "zzzz";
       element_focused := true; focusout := [JStr "Paris, France"];
       watchEnter := true; opts := []; listeners := all_listeners;
       calls :=
         [GetPlacePredictions
            (JObj [("input", JStr "par"); ("offset", JNum (num_of_nat 3));
                   ("componentRestrictions", JUndefined); ("types", JArr [])]);
          GetDetails
            (JObj [("fields", defaultPlacesFields);
                   ("reference", JStr "ref-paris")])] |}.
Proof. vm_compute. reflexivity. Qed.

Lemma options_withdrawn_world :
  options_withdrawn =
    {| scope_options := JUndefined; scope_details := JUndefined;
       scope_placeId := JUndefined; scope_initialAddress := JUndefined;
       scope_gPlace :=
         Some {| w_types := JStr "geocode"; w_bounds := JNull;
                 w_componentRestrictions := JObj [("country", JStr "ca")];
                 w_fields := JNull; w_place := JUndefined |};
       viewValue := JUndefined; element_value := "";
       element_focused := false; focusout := []; watchEnter := false;
       opts := [("types", JStr "geocode");
                ("componentRestrictions", JObj [("country", JStr "ca")])];
       listeners := all_listeners; calls := [] |}.
Proof. vm_compute. reflexivity. Qed.

(** * The further properties at concrete worlds *)

Lemma withdrawn_country_stays_in_query_witness :
  exists st1 st2,
    initOpts country_withdrawn = Done tt st1 /\
    getPlace (rt := sample_runtime) (JObj [("name", JStr "par")]) st1
      = Done tt st2 /\
    calls st2 =
      [GetPlacePredictions
         (JObj [("input", JStr "par"); ("offset", JNum (num_of_nat 3));
                ("componentRestrictions", JObj [("country", JStr "ca")]);
                ("types", JArr [])])].
Proof.
  destruct (withdrawn_country_stays_in_query (rt := sample_runtime)
              country_withdrawn
              {| w_types := JArr []; w_bounds := JNull;
                 w_componentRestrictions := JObj [("country", JStr "ca")];
                 w_fields := JNull; w_place := JUndefined |} "par")
    as (st1 & w1 & st2 & H1 & _ & _ & H2 & Hc);
    [vm_compute; reflexivity | vm_compute; reflexivity
    | vm_compute; reflexivity | discriminate |].
  exists st1, st2. split; [exact H1|]. split; [exact H2|].
  rewrite Hc. vm_compute. reflexivity.
Defined.

Lemma first_initOpts_drops_default_fields_witness :
  exists st1 w1 st2 w2,
    link (attached watching_options JUndefined JUndefined) = Done tt st1 /\
    scope_gPlace st1 = Some w1 /\
    w_fields w1 = defaultPlacesFields /\
    initOpts st1 = Done tt st2 /\
    scope_gPlace st2 = Some w2 /\
    w_fields w2 = JNull.
Proof.
  apply (first_initOpts_drops_default_fields
           (attached watching_options JUndefined JUndefined));
    vm_compute; reflexivity.
Defined.

Lemma link_returns_iff_options_bound_witness :
  exists st',
    link (attached watching_options JUndefined JUndefined) = Done tt st' /\
    listeners st' = all_listeners /\ watchEnter st' = false /\ opts st' = [].
Proof.
  destruct (link_returns_iff_options_bound
              (attached watching_options JUndefined JUndefined) eq_refl)
    as ((_ & Hreturns) & Hall).
  destruct Hreturns as (st' & H); [split; discriminate|].
  destruct (Hall st' H) as (Hl & Hw & Ho & _).
  exists st'. repeat split; assumption.
Defined.

Lemma bound_value_follows_field_witness :
  in_sync
    (final_state
       (handle (rt := sample_runtime) (DetailsReply paris_details "OK")
          (typed_into watching_options JUndefined "par"))).
Proof.
  apply (bound_value_follows_field (rt := sample_runtime)).
  - vm_compute. reflexivity.
  - intros _ fa H. vm_compute in H. injection H as <-.
    eexists. reflexivity.
Defined.

Lemma focusout_handlers_fire_once_witness :
  exists st1,
    browser_focusout (rt := sample_runtime) second_search = Done tt st1 /\
    element_value st1 = "Paris, France" /\
    focusout st1 = [] /\
    browser_focusout (rt := sample_runtime) st1 = Done tt st1.
Proof.
  destruct (focusout_handlers_fire_once (rt := sample_runtime)
              second_search [] "Paris, France")
    as (st1 & H1 & He & Hf & _ & _ & _ & H2); [vm_compute; reflexivity|].
  exists st1. repeat split; assumption.
Defined.

Lemma resolved_address_returns_on_focus_loss_witness :
  exists st3,
    run_all [ detailsresult (rt := sample_runtime) paris_details "OK";
              user_types " zzzz "; browser_focusout (rt := sample_runtime) ]
      (typed_into watching_options JUndefined "par") = Done tt st3 /\
    element_value st3 = "Paris, France" /\
    viewValue st3 = JStr "zzzz".
Proof.
  destruct (resolved_address_returns_on_focus_loss (rt := sample_runtime)
              (typed_into watching_options JUndefined "par")
              paris_details "Paris, France" " zzzz " (JStr "zzzz"))
    as (st3 & Hrun & He & Hv & _); [vm_compute; reflexivity|].
  exists st3. split; [exact Hrun|]. split; assumption.
Defined.

Lemma geocode_reply_without_first_result_witness :
  geocode_callback (rt := sample_runtime) (JArr []) "OK" address_bound =
    Done tt (with_calls [ConsoleWarn "No results found"] address_bound) /\
  geocode_callback (rt := sample_runtime) JNull "OK" address_bound =
    Threw (TypeError "0") address_bound.
Proof.
  destruct (geocode_reply_without_first_result (rt := sample_runtime)
              address_bound (JArr [])) as (H1 & _).
  destruct (geocode_reply_without_first_result (rt := sample_runtime)
              address_bound JNull) as (_ & H2).
  split.
  - apply (H1 JUndefined); reflexivity.
  - apply H2. left. reflexivity.
Defined.

Lemma details_reply_without_result_is_caught_witness :
  detailsresult (rt := sample_runtime) JNull "OK" second_search =
    Done tt
      (with_calls
         (calls second_search ++
          [ExceptionHandler (TypeError "formatted_address")])
         second_search).
Proof.
  apply (details_reply_without_result_is_caught (rt := sample_runtime)
           second_search JNull (TypeError "formatted_address")).
  reflexivity.
Defined.

Lemma initial_address_is_resolved_witness :
  exists st1 st2,
    initInitialAddress address_bound = Done tt st1 /\
    calls st1 = [Geocode (JObj [("location", new_york)])] /\
    geocode_callback (rt := sample_runtime) (JArr [park_row]) "OK" st1
      = Done tt st2 /\
    element_value st2 = "150 Park Row, New York, NY" /\
    viewValue st2 = JStr "150 Park Row, New York, NY" /\
    scope_details st2 = park_row.
Proof.
  destruct (initial_address_is_resolved (rt := sample_runtime)
              address_bound park_row [] "150 Park Row, New York, NY")
    as (st1 & st2 & H1 & Hc & H2 & He & Hv & Hd & _);
    try (vm_compute; reflexivity).
  exists st1, st2. repeat split; assumption.
Defined.

Lemma unusable_initial_address_is_ignored_witness :
  initPlace latitude_only = Done tt latitude_only /\
  initInitialAddress latitude_only = Done tt latitude_only.
Proof.
  apply (unusable_initial_address_is_ignored latitude_only).
  - vm_compute. reflexivity.
  - right. right. vm_compute. reflexivity.
Defined.

Lemma place_changed_without_bound_value_throws_witness :
  on_place_changed (rt := sample_runtime) untouched
    = Threw (TypeError "length") untouched.
Proof.
  apply (place_changed_without_bound_value_throws (rt := sample_runtime)
           untouched (widget_with_place JUndefined));
    try (vm_compute; reflexivity).
  left. reflexivity.
Defined.

Lemma place_changed_queries_bound_value_witness :
  exists st',
    on_place_changed (rt := sample_runtime)
      (typed_into watching_options JUndefined "par") = Done tt st' /\
    calls st' =
      [GetPlacePredictions
         (JObj [("input", JStr "par"); ("offset", JNum (num_of_nat 3));
                ("componentRestrictions", JUndefined); ("types", JArr [])])] /\
    element_focused st' = false.
Proof.
  destruct (place_changed_queries_bound_value (rt := sample_runtime)
              (typed_into watching_options JUndefined "par")
              (widget_with_place (typed_name "par")) "par")
    as (st' & Hrun & Hc & Hf & _); try (vm_compute; reflexivity).
  exists st'. repeat split; assumption.
Defined.

Lemma details_requests_ask_default_fields_witness :
  exists st1 w1 st2 st3,
    initOpts fields_supplied = Done tt st1 /\
    scope_gPlace st1 = Some w1 /\
    w_fields w1 = own_fields /\
    initPlace st1 = Done tt st2 /\
    calls st2 =
      [GetDetails (JObj [("fields", defaultPlacesFields);
                         ("placeId", JStr "abc123")])] /\
    listentoresult (JArr [paris_prediction]) "OK" st1 = Done tt st3 /\
    calls st3 =
      [GetDetails (JObj [("fields", defaultPlacesFields);
                         ("placeId", JStr "abc123");
                         ("reference", JStr "ref-paris")])].
Proof.
  destruct (details_requests_ask_default_fields (rt := sample_runtime)
              fields_supplied new_Autocomplete)
    as ((st1 & w1 & Hrun & Hg & Hw & _ & Hplace & Henter) & _);
    [vm_compute; reflexivity | vm_compute; reflexivity
    | vm_compute; reflexivity |].
  specialize (Hplace eq_refl).
  specialize (Henter paris_prediction [] (JStr "ref-paris") "OK" eq_refl).
  do 4 eexists. split; [exact Hrun|]. split; [exact Hg|].
  split; [exact Hw|]. split; [exact Hplace|].
  split; [vm_compute; reflexivity|].
  split; [exact Henter|]. vm_compute. reflexivity.
Defined.
